(** * TechLab WhatsApp gateway: dispatch, normalisation, templates, retry

    A shallow embedding of the Odoo addon [techlab_whatsapp_gateway]
    (models [whatsapp.gateway], [whatsapp.external.gateway],
    [whatsapp.meta.gateway], [whatsapp.gateway.log], [whatsapp.template])
    and the properties of its dispatch and rendering core.

    Python values are modelled as follows.
    - [str]: a Python string, the list of its Unicode code points.
    - exceptions: a value [Raise e] of the result type [res].
    - the database, the job queue, the chatter and the network: fields of
      an explicit [world] threaded through the stateful methods.
    - what the interpreter or the framework supplies and the addon only
      calls (the HTTP transport, [repr] of a float, ...): parameters. *)

From Stdlib Require Import String Ascii.
From Stdlib Require Import List NArith ZArith Bool Lia.
From Stdlib Require DecimalString.
Import ListNotations.

Set Implicit Arguments.
Local Set Warnings "-register-all".
Local Open Scope N_scope.
Local Open Scope list_scope.

(* ================================================================== *)
(** ** Python strings *)

Definition char := N.
Definition str := list char.

(** Code point of an ASCII character, and the string of an ASCII
    literal. *)
Definition chr (a : ascii) : char := N_of_ascii a.
Definition u (s : string) : str := map chr (list_ascii_of_string s).
Arguments chr a%_char.
Arguments u s%_string.

(** JSON text is full of double quotes; [uq] reads a literal in which
    every apostrophe stands for a double quote. *)
Definition dquote : char := 34.
Definition uq (s : string) : str :=
  map (fun c => if c =? chr "'" then dquote else c) (u s).
Arguments uq s%_string.

Definition str_eq_dec : forall a b : str, {a = b} + {a <> b} :=
  list_eq_dec N.eq_dec.
Definition str_eqb (a b : str) : bool := if str_eq_dec a b then true else false.

(** Truthiness of a string: [if s:] / [if not s:]. *)
Definition truthy (s : str) : bool :=
  match s with [] => false | _ => true end.

(** [s.startswith(p)] *)
Fixpoint startswith (p s : str) : bool :=
  match p, s with
  | [], _ => true
  | _ :: _, [] => false
  | a :: p', b :: s' => (a =? b) && startswith p' s'
  end.

(** [str.isdigit] on one character: the code points whose Unicode
    property Numeric_Type is Digit or Decimal (table of Unicode 14, the
    one of CPython 3.11).  Besides the decimal digits of every script it
    holds of digit-like characters such as the superscripts U+00B2,
    U+00B3 and U+00B9. *)
Definition in_ranges (t : list (N * N)) (c : char) : bool :=
  existsb (fun r => (fst r <=? c) && (c <=? snd r)) t.

Definition digit_ranges : list (N * N) :=
  [(48, 57); (178, 179); (185, 185); (1632, 1641); (1776, 1785); (1984, 1993);
   (2406, 2415); (2534, 2543); (2662, 2671); (2790, 2799); (2918, 2927);
   (3046, 3055); (3174, 3183); (3302, 3311); (3430, 3439); (3558, 3567);
   (3664, 3673); (3792, 3801); (3872, 3881); (4160, 4169); (4240, 4249);
   (4969, 4977); (6112, 6121); (6160, 6169); (6470, 6479); (6608, 6618);
   (6784, 6793); (6800, 6809); (6992, 7001); (7088, 7097); (7232, 7241);
   (7248, 7257); (8304, 8304); (8308, 8313); (8320, 8329); (9312, 9320);
   (9332, 9340); (9352, 9360); (9450, 9450); (9461, 9469); (9471, 9471);
   (10102, 10110); (10112, 10120); (10122, 10130); (42528, 42537);
   (43216, 43225); (43264, 43273); (43472, 43481); (43504, 43513);
   (43600, 43609); (44016, 44025); (65296, 65305); (66720, 66729);
   (68160, 68163); (68912, 68921); (69216, 69224); (69714, 69722);
   (69734, 69743); (69872, 69881); (69942, 69951); (70096, 70105);
   (70384, 70393); (70736, 70745); (70864, 70873); (71248, 71257);
   (71360, 71369); (71472, 71481); (71904, 71913); (72016, 72025);
   (72784, 72793); (73040, 73049); (73120, 73129); (92768, 92777);
   (92864, 92873); (93008, 93017); (120782, 120831); (123200, 123209);
   (123632, 123641); (125264, 125273); (127232, 127242); (130032, 130041)].

Definition isdigit (c : char) : bool := in_ranges digit_ranges c.

(** [str.isdecimal] on one character (Unicode general category Nd): used
    only to state what a decimal digit is. *)
Definition decimal_ranges : list (N * N) :=
  [(48, 57); (1632, 1641); (1776, 1785); (1984, 1993); (2406, 2415);
   (2534, 2543); (2662, 2671); (2790, 2799); (2918, 2927); (3046, 3055);
   (3174, 3183); (3302, 3311); (3430, 3439); (3558, 3567); (3664, 3673);
   (3792, 3801); (3872, 3881); (4160, 4169); (4240, 4249); (6112, 6121);
   (6160, 6169); (6470, 6479); (6608, 6617); (6784, 6793); (6800, 6809);
   (6992, 7001); (7088, 7097); (7232, 7241); (7248, 7257); (42528, 42537);
   (43216, 43225); (43264, 43273); (43472, 43481); (43504, 43513);
   (43600, 43609); (44016, 44025); (65296, 65305); (66720, 66729);
   (68912, 68921); (69734, 69743); (69872, 69881); (69942, 69951);
   (70096, 70105); (70384, 70393); (70736, 70745); (70864, 70873);
   (71248, 71257); (71360, 71369); (71472, 71481); (71904, 71913);
   (72016, 72025); (72784, 72793); (73040, 73049); (73120, 73129);
   (92768, 92777); (92864, 92873); (93008, 93017); (120782, 120831);
   (123200, 123209); (123632, 123641); (125264, 125273); (130032, 130041)].

Definition isdecimal (c : char) : bool := in_ranges decimal_ranges c.

(** The ASCII digits ['0'..'9']. *)
Definition is_ascii_digit (c : char) : bool := (48 <=? c) && (c <=? 57).

(* ================================================================== *)
(** ** Exceptions and results *)

Inductive exn_class :=
| UserError | ValidationError | MissingError
| ValueError | TypeError | RequestException.

(** An exception: its class, [str(e)], and the attribute [status_code]
    when the object has one ([getattr(e, 'status_code', 500)]). *)
Record exn := mk_exn {
  exn_class_of : exn_class;
  exn_text : str;
  exn_status_code : option Z
}.

Definition raise_of (c : exn_class) (text : str) : exn := mk_exn c text None.

Inductive res (A : Type) : Type :=
| Ret (a : A)
| Raise (e : exn).
Arguments Ret {A} a.
Arguments Raise {A} e.

(* ================================================================== *)
(** ** Phone normaliser: [WhatsAppGateway._clean_phone_number] *)

Definition _clean_phone_number (phone_number : str) : res str :=
  if negb (truthy phone_number) then
    Raise (raise_of UserError (u "Phone number is required"))
  else
    let cleaned := filter isdigit phone_number in
    if negb (startswith (u "39") cleaned) && (length cleaned =? 10)%nat then
      Ret (u "39" ++ cleaned)
    else if negb (startswith (u "+") cleaned) then
      Ret (u "+" ++ cleaned)
    else
      Ret cleaned.

(* ================================================================== *)
(** ** Strings: replace, find, lstrip, decimal and hexadecimal text *)

(** [s.replace(old, new)] for a non-empty [old]: a left-to-right scan that
    replaces every non-overlapping occurrence.  [skip] counts the
    characters of a matched occurrence that are still to be dropped. *)
Fixpoint replace_from (old new : str) (skip : nat) (s : str) : str :=
  match s with
  | [] => []
  | c :: t =>
    match skip with
    | S k => replace_from old new k t
    | O =>
      if startswith old s
      then new ++ replace_from old new (List.length old - 1) t
      else c :: replace_from old new O t
    end
  end.

(** With an empty [old] Python inserts [new] before every character and
    at the end. *)
Definition replace (old new s : str) : str :=
  match old with
  | [] => new ++ flat_map (fun c => c :: new) s
  | _ :: _ => replace_from old new O s
  end.

(** [sub in s] *)
Fixpoint contains (sub s : str) : bool :=
  startswith sub s || match s with [] => false | _ :: t => contains sub t end.

(** [s.lstrip('+')] *)
Fixpoint lstrip_plus (s : str) : str :=
  match s with
  | c :: t => if c =? chr "+" then lstrip_plus t else s
  | [] => []
  end.

(** [s.split('.')] : never empty, [''.split('.') = ['']]. *)
Fixpoint split_dot (s : str) : list str :=
  match s with
  | [] => [[]]
  | c :: t =>
    if c =? chr "."
    then [] :: split_dot t
    else match split_dot t with
         | p :: ps => (c :: p) :: ps
         | [] => [[c]]
         end
  end.

(** [str(n)] of an integer. *)
Definition dec (z : Z) : str :=
  u (DecimalString.NilZero.string_of_int (Z.to_int z)).

(** Lower-case hexadecimal digit, and the four-digit form of [json]'s
    [\uXXXX]. *)
Definition hex_digit (n : N) : char :=
  if n <? 10 then 48 + n else 87 + n.
Definition hex4 (n : N) : str :=
  [hex_digit (n / 4096 mod 16); hex_digit (n / 256 mod 16);
   hex_digit (n / 16 mod 16); hex_digit (n mod 16)].

Definition hex_value (c : char) : option N :=
  if (48 <=? c) && (c <=? 57) then Some (c - 48)
  else if (97 <=? c) && (c <=? 102) then Some (c - 87)
  else if (65 <=? c) && (c <=? 70) then Some (c - 55)
  else None.
Definition unhex4 (a b c d : char) : option N :=
  match hex_value a, hex_value b, hex_value c, hex_value d with
  | Some x, Some y, Some z, Some w => Some (((x * 16 + y) * 16 + z) * 16 + w)
  | _, _, _, _ => None
  end.

(* ================================================================== *)
(** ** JSON values, [json.dumps] and [json.loads] *)

(** A decoded JSON document.  A Python [dict] keeps insertion order, so
    it is an association list with at most one binding per key.  Floats
    are kept as their [repr], which is all [json.dumps] needs. *)
Inductive json :=
| JNull
| JBool (b : bool)
| JInt (z : Z)
| JFloat (repr : str)
| JStr (s : str)
| JArr (items : list json)
| JObj (members : list (str * json)).

Definition dict := list (str * json).

Fixpoint dict_get (k : str) (d : dict) : option json :=
  match d with
  | [] => None
  | (k', v) :: d' => if str_eqb k k' then Some v else dict_get k d'
  end.

(** [d[k] = v] : overwrite in place, or append a new binding. *)
Fixpoint dict_set (k : str) (v : json) (d : dict) : dict :=
  match d with
  | [] => [(k, v)]
  | (k', v') :: d' =>
    if str_eqb k k' then (k', v) :: d' else (k', v') :: dict_set k v d'
  end.

(** [d.update(d2)] for a mapping [d2]. *)
Definition dict_update (d d2 : dict) : dict :=
  fold_left (fun acc kv => dict_set (fst kv) (snd kv) acc) d2 d.

(** [json.dumps] with its defaults: [ensure_ascii=True], separators
    [', '] and [': ']. *)
Definition escape_char (c : char) : str :=
  if c =? dquote then [92; 34]
  else if c =? 92 then [92; 92]
  else if c =? 10 then u "\n"
  else if c =? 13 then u "\r"
  else if c =? 9 then u "\t"
  else if c =? 8 then u "\b"
  else if c =? 12 then u "\f"
  else if (32 <=? c) && (c <=? 126) then [c]
  else if c <? 65536 then u "\u" ++ hex4 c
  else let v := c - 65536 in
       u "\u" ++ hex4 (55296 + v / 1024) ++ u "\u" ++ hex4 (56320 + v mod 1024).

Definition encode_basestring_ascii (s : str) : str :=
  dquote :: flat_map escape_char s ++ [dquote].

Fixpoint json_dumps (j : json) : str :=
  match j with
  | JNull => u "null"
  | JBool true => u "true"
  | JBool false => u "false"
  | JInt z => dec z
  | JFloat r => r
  | JStr s => encode_basestring_ascii s
  | JArr l =>
    u "[" ++
    (fix items (l : list json) : str :=
       match l with
       | [] => []
       | x :: t =>
         json_dumps x ++ match t with [] => [] | _ => u ", " ++ items t end
       end) l ++ u "]"
  | JObj m =>
    u "{" ++
    (fix members (m : list (str * json)) : str :=
       match m with
       | [] => []
       | (k, v) :: t =>
         encode_basestring_ascii k ++ u ": " ++ json_dumps v ++
         match t with [] => [] | _ => u ", " ++ members t end
       end) m ++ u "}"
  end.

(** [json.loads], after the C scanner of CPython.  [None] stands for
    [json.JSONDecodeError].  [float_repr lit] is [repr(float(lit))] for a
    number literal with a fraction or an exponent; it is the
    interpreter's and is taken as a parameter. *)
Definition is_ws (c : char) : bool :=
  (c =? 32) || (c =? 9) || (c =? 10) || (c =? 13).

Fixpoint skip_ws (s : str) : str :=
  match s with
  | c :: t => if is_ws c then skip_ws t else s
  | [] => []
  end.

Definition is_high_surrogate (c : N) : bool := (55296 <=? c) && (c <=? 56319).
Definition is_low_surrogate (c : N) : bool := (56320 <=? c) && (c <=? 57343).
Definition join_surrogates (hi lo : N) : N :=
  65536 + (hi - 55296) * 1024 + (lo - 56320).

Definition unescape (c : char) : option char :=
  if c =? dquote then Some dquote
  else if c =? 92 then Some 92
  else if c =? chr "/" then Some (chr "/")
  else if c =? chr "b" then Some 8
  else if c =? chr "f" then Some 12
  else if c =? chr "n" then Some 10
  else if c =? chr "r" then Some 13
  else if c =? chr "t" then Some 9
  else None.

(** The body of a string literal, after its opening quote: the decoded
    text (accumulated in reverse) and what follows the closing quote. *)
Fixpoint scanstring (s : str) (acc : str) : option (str * str) :=
  match s with
  | [] => None
  | c :: t =>
    if c =? dquote then Some (rev acc, t)
    else if c =? 92 then
      match t with
      | [] => None
      | e :: t1 =>
        if e =? chr "u" then
          match t1 with
          | h1 :: h2 :: h3 :: h4 :: t2 =>
            match unhex4 h1 h2 h3 h4 with
            | None => None
            | Some cu =>
              if is_high_surrogate cu && (6 <? List.length t2)%nat then
                match t2 with
                | b :: v :: g1 :: g2 :: g3 :: g4 :: t3 =>
                  if (b =? 92) && (v =? chr "u") then
                    match unhex4 g1 g2 g3 g4 with
                    | None => None
                    | Some cu2 =>
                      if is_low_surrogate cu2
                      then scanstring t3 (join_surrogates cu cu2 :: acc)
                      else scanstring t2 (cu :: acc)
                    end
                  else scanstring t2 (cu :: acc)
                | _ => scanstring t2 (cu :: acc)
                end
              else scanstring t2 (cu :: acc)
            end
          | _ => None
          end
        else
          match unescape e with
          | Some x => scanstring t1 (x :: acc)
          | None => None
          end
      end
    else if c <=? 31 then None
    else scanstring t (c :: acc)
  end.

(** Number literals: an optional minus sign, [0] or a digit string without
    leading zero, then optionally a fraction (a dot and digits) and an
    exponent ([e] or [E], an optional sign and digits). *)
Fixpoint span_digits (s : str) : str * str :=
  match s with
  | c :: t =>
    if is_ascii_digit c
    then let (d, r) := span_digits t in (c :: d, r)
    else ([], s)
  | [] => ([], [])
  end.

Definition int_part (s : str) : option (str * str) :=
  match s with
  | c :: t =>
    if c =? 48 then Some ([c], t)
    else if is_ascii_digit c then let (d, r) := span_digits t in Some (c :: d, r)
    else None
  | [] => None
  end.

Definition frac_part (s : str) : str * str :=
  match s with
  | c :: t =>
    if c =? chr "." then
      match span_digits t with
      | ([], _) => ([], s)
      | (d, r) => (c :: d, r)
      end
    else ([], s)
  | [] => ([], [])
  end.

Definition exp_part (s : str) : str * str :=
  match s with
  | c :: t =>
    if (c =? chr "e") || (c =? chr "E") then
      let (sign, t') :=
        match t with
        | g :: t1 => if (g =? chr "-") || (g =? chr "+") then ([g], t1) else ([], t)
        | [] => ([], t)
        end in
      match span_digits t' with
      | ([], _) => ([], s)
      | (d, r) => (c :: sign ++ d, r)
      end
    else ([], s)
  | [] => ([], [])
  end.

(** Value of a string of ASCII digits. *)
Definition int_of_digits (d : str) : Z :=
  fold_left (fun acc c => (10 * acc + Z.of_N (c - 48))%Z) d 0%Z.

Definition strip_prefix (p s : str) : option str :=
  if startswith p s then Some (skipn (List.length p) s) else None.

Section Loads.
Variable float_repr : str -> str.

Definition match_number (s : str) : option (json * str) :=
  let (neg, s1) :=
    match s with
    | c :: t => if c =? chr "-" then (true, t) else (false, s)
    | [] => (false, s)
    end in
  match int_part s1 with
  | None => None
  | Some (i, r1) =>
    let (f, r2) := frac_part r1 in
    let (e, r3) := exp_part r2 in
    match f, e with
    | [], [] =>
      Some (JInt (if neg then - int_of_digits i else int_of_digits i)%Z, r3)
    | _, _ =>
      Some (JFloat (float_repr ((if neg then u "-" else []) ++ i ++ f ++ e)), r3)
    end
  end.

(** [scan_once]: one value at the head of [s].  The two loops read the
    items of an array and the members of an object after the first
    [ [ ] or [ { ]; [fuel] bounds the nesting and the number of items. *)
Fixpoint scan_once (fuel : nat) (s : str) : option (json * str) :=
  match fuel with
  | O => None
  | S fuel' =>
    match s with
    | [] => None
    | c :: t =>
      if c =? dquote then
        match scanstring t [] with
        | Some (x, r) => Some (JStr x, r)
        | None => None
        end
      else if c =? chr "{" then
        match skip_ws t with
        | c1 :: r1 =>
          if c1 =? chr "}" then Some (JObj [], r1)
          else match parse_members fuel' (c1 :: r1) [] with
               | Some (m, r) => Some (JObj m, r)
               | None => None
               end
        | [] => None
        end
      else if c =? chr "[" then
        match skip_ws t with
        | c1 :: r1 =>
          if c1 =? chr "]" then Some (JArr [], r1)
          else match parse_items fuel' (c1 :: r1) [] with
               | Some (l, r) => Some (JArr l, r)
               | None => None
               end
        | [] => None
        end
      else
        match strip_prefix (u "null") s, strip_prefix (u "true") s,
              strip_prefix (u "false") s, strip_prefix (u "NaN") s,
              strip_prefix (u "Infinity") s, strip_prefix (u "-Infinity") s
        with
        | Some r, _, _, _, _, _ => Some (JNull, r)
        | _, Some r, _, _, _, _ => Some (JBool true, r)
        | _, _, Some r, _, _, _ => Some (JBool false, r)
        | _, _, _, Some r, _, _ => Some (JFloat (u "NaN"), r)
        | _, _, _, _, Some r, _ => Some (JFloat (u "Infinity"), r)
        | _, _, _, _, _, Some r => Some (JFloat (u "-Infinity"), r)
        | _, _, _, _, _, _ => match_number s
        end
    end
  end
with parse_items (fuel : nat) (s : str) (acc : list json)
     : option (list json * str) :=
  match fuel with
  | O => None
  | S fuel' =>
    match scan_once fuel' s with
    | None => None
    | Some (v, r) =>
      match skip_ws r with
      | c :: r1 =>
        if c =? chr "]" then Some (rev (v :: acc), r1)
        else if c =? chr "," then parse_items fuel' (skip_ws r1) (v :: acc)
        else None
      | [] => None
      end
    end
  end
with parse_members (fuel : nat) (s : str) (acc : dict)
     : option (dict * str) :=
  match fuel with
  | O => None
  | S fuel' =>
    match s with
    | q :: t =>
      if q =? dquote then
        match scanstring t [] with
        | None => None
        | Some (k, r) =>
          match skip_ws r with
          | c :: r1 =>
            if c =? chr ":" then
              match scan_once fuel' (skip_ws r1) with
              | None => None
              | Some (v, r2) =>
                match skip_ws r2 with
                | c2 :: r3 =>
                  if c2 =? chr "}" then Some (dict_set k v acc, r3)
                  else if c2 =? chr ","
                  then parse_members fuel' (skip_ws r3) (dict_set k v acc)
                  else None
                | [] => None
                end
              end
            else None
          | [] => None
          end
        end
      else None
    | [] => None
    end
  end.

(** [json.loads(s)]: one value between optional white space; a leading
    byte-order mark is refused.  Neither the nesting nor the number of
    items of a document exceeds its length, which bounds the fuel. *)
Definition json_loads (s : str) : option json :=
  match s with
  | 65279 :: _ => None
  | _ =>
    match scan_once (2 * List.length s + 2) (skip_ws s) with
    | Some (v, r) => match skip_ws r with [] => Some v | _ => None end
    | None => None
    end
  end.
End Loads.

(* ================================================================== *)
(** ** Records of the addon's models

    A [Char] or [Text] field that is not set reads as [False]; it is only
    ever tested for truthiness or stored back, so it is modelled by the
    empty string.  In the same way the optional arguments [model] and
    [res_id] of the dispatcher are a string and an integer whose falsy
    values ([''], [0]) stand for [None] and [False]. *)

Module Gateway.
(** [whatsapp.gateway] *)
Record t := {
  id : N;
  name : str;
  type : str;        (* 'external_rest' or 'meta_cloud_api' *)
  active : bool
}.
End Gateway.

Module ExternalGateway.
(** [whatsapp.external.gateway], which [_inherits] a gateway through
    [gateway_id] and has an [id] of its own. *)
Record t := {
  id : N;
  gateway_id : N;
  url : str;
  method : str;      (* 'GET' or 'POST' *)
  recipient_param : str;
  message_param : str;
  api_key_param : str;
  api_key_value : str;
  headers : str;
  params_template : str
}.
End ExternalGateway.

Module MetaGateway.
(** [whatsapp.meta.gateway] *)
Record t := {
  id : N;
  gateway_id : N;
  phone_number_id : str;
  access_token : str;
  sender_name : str
}.

(** The computed field [endpoint_template]. *)
Definition endpoint_template (self : t) : str :=
  if truthy (phone_number_id self)
  then u "https://graph.facebook.com/v18.0/" ++ phone_number_id self
         ++ u "/messages"
  else [].
End MetaGateway.

Inductive status := success | error.

Module Log.
(** [whatsapp.gateway.log]; [timestamp] defaults to the time of
    creation.  [gateway_id] is [None] for an empty many-to-one. *)
Record t := {
  gateway_id : option N;
  type : str;
  message : str;
  phone_number : str;
  status : status;
  response_code : str;
  response_body : str;
  timestamp : Z;
  res_model : str;
  res_id : Z
}.
End Log.

(** A job of [queue_job]: the method [send_whatsapp_async] delayed on a
    gateway with its arguments. *)
Record job := {
  job_gateway : N;
  job_message : str;
  job_phone_number : str;
  job_model : str;
  job_res_id : Z
}.

(** A message posted on a record's chatter. *)
Record note := {
  note_model : str;
  note_res_id : Z;
  note_body : str;
  note_subtype : str
}.

(** The client action [display_notification] returned to the user. *)
Record notification := {
  notif_message : str;
  notif_type : str
}.

(** An outgoing call of [requests.get] or [requests.post] and what
    comes back. *)
Record http_request := {
  rq_method : str;
  rq_url : str;
  rq_params : option json;    (* [params=], the query string of a GET *)
  rq_json : option json;      (* [json=], the body of a POST *)
  rq_headers : dict;
  rq_timeout : Z
}.

Record http_response := {
  status_code : Z;
  reason : str;
  resp_url : str;
  text : str
}.

(** What a gateway's send method returns: the dictionary with keys
    ['status_code'], ['response_body'] and ['success']. *)
Record send_result := {
  sr_status_code : Z;
  sr_response_body : str;
  sr_success : bool
}.

(** The database tables the core reads and writes, the job queue, the
    chatter, the requests sent so far and the clock. *)
Record world := {
  gateways : list Gateway.t;
  external_gateways : list ExternalGateway.t;
  meta_gateways : list MetaGateway.t;
  logs : list Log.t;
  queue : list job;
  chatter : list note;
  sent : list http_request;
  now : Z
}.

(** What the interpreter, the framework and the network decide.
    - [float_repr]: [repr(float(lit))].
    - [update_from_iterable]: [dict.update] with an argument that is not a
      mapping.
    - [http]: the answer to a request, given the requests sent before it;
      [Raise] is any exception of [requests].
    - [missing_record_text]: the text of the [MissingError] raised when a
      field is read on [browse(id)] and the table has no such row.
    - [postable model res_id]: the record exists and [message_post] on it
      succeeds. *)
Record platform := {
  float_repr : str -> str;
  update_from_iterable : dict -> json -> res dict;
  http : list http_request -> http_request -> res http_response;
  missing_record_text : str -> N -> str;
  postable : str -> Z -> bool
}.

(** Stateful methods: a state and exception monad over [world]. *)
Definition M (A : Type) : Type := world -> world * res A.

Definition ret {A} (a : A) : M A := fun w => (w, Ret a).
Definition raise {A} (e : exn) : M A := fun w => (w, Raise e).
Definition bind {A B} (m : M A) (k : A -> M B) : M B :=
  fun w => match m w with
           | (w', Ret a) => k a w'
           | (w', Raise e) => (w', Raise e)
           end.
Definition lift {A} (r : res A) : M A := fun w => (w, r).
Definition modify (f : world -> world) : M unit := fun w => (f w, Ret tt).

Notation "x <- m ;; k" := (bind m (fun x => k))
  (at level 61, m at next level, right associativity).
Notation "m ;;; k" := (bind m (fun _ => k))
  (at level 61, right associativity).

Definition set_logs (l : list Log.t) (w : world) : world :=
  {| gateways := gateways w; external_gateways := external_gateways w;
     meta_gateways := meta_gateways w; logs := l; queue := queue w;
     chatter := chatter w; sent := sent w; now := now w |}.
Definition set_queue (q : list job) (w : world) : world :=
  {| gateways := gateways w; external_gateways := external_gateways w;
     meta_gateways := meta_gateways w; logs := logs w; queue := q;
     chatter := chatter w; sent := sent w; now := now w |}.
Definition set_chatter (c : list note) (w : world) : world :=
  {| gateways := gateways w; external_gateways := external_gateways w;
     meta_gateways := meta_gateways w; logs := logs w; queue := queue w;
     chatter := c; sent := sent w; now := now w |}.
Definition set_sent (s : list http_request) (w : world) : world :=
  {| gateways := gateways w; external_gateways := external_gateways w;
     meta_gateways := meta_gateways w; logs := logs w; queue := queue w;
     chatter := chatter w; sent := s; now := now w |}.

(** [env[model].browse(id)] followed by a field read. *)
Definition browse_gateway (w : world) (i : N) : option Gateway.t :=
  find (fun g => Gateway.id g =? i) (gateways w).
Definition browse_external (w : world) (i : N) : option ExternalGateway.t :=
  find (fun g => ExternalGateway.id g =? i) (external_gateways w).
Definition browse_meta (w : world) (i : N) : option MetaGateway.t :=
  find (fun g => MetaGateway.id g =? i) (meta_gateways w).

(* ================================================================== *)
(** ** Gateways and the dispatcher *)

(** [response.raise_for_status()] of [requests]: an [HTTPError] for a
    status in the 4xx or 5xx range. *)
Definition raise_for_status (r : http_response) : res unit :=
  let c := status_code r in
  if ((400 <=? c) && (c <? 500))%Z then
    Raise (raise_of RequestException
             (dec c ++ u " Client Error: " ++ reason r ++ u " for url: "
                ++ resp_url r))
  else if ((500 <=? c) && (c <? 600))%Z then
    Raise (raise_of RequestException
             (dec c ++ u " Server Error: " ++ reason r ++ u " for url: "
                ++ resp_url r))
  else Ret tt.

(** [params[key] = value] on whatever [json.loads] returned. *)
Definition setitem (params : json) (key : str) (value : json) : res json :=
  match params with
  | JObj m => Ret (JObj (dict_set key value m))
  | JArr _ =>
    Raise (raise_of TypeError
             (u "list indices must be integers or slices, not str"))
  | JStr _ =>
    Raise (raise_of TypeError (u "'str' object does not support item assignment"))
  | JInt _ =>
    Raise (raise_of TypeError (u "'int' object does not support item assignment"))
  | JFloat _ =>
    Raise (raise_of TypeError (u "'float' object does not support item assignment"))
  | JBool _ =>
    Raise (raise_of TypeError (u "'bool' object does not support item assignment"))
  | JNull =>
    Raise (raise_of TypeError
             (u "'NoneType' object does not support item assignment"))
  end.

Section Core.
Variable P : platform.

(** [requests.get] / [requests.post]: the request goes out and the
    network answers. *)
Definition send_request (rq : http_request) : M http_response :=
  fun w => (set_sent (sent w ++ [rq]) w, http P (sent w) rq).

(** The headers of [_send_external_message]: the default merged with
    the configured ones; an undecodable [headers] field is only
    warned about. *)
Definition external_headers (self : ExternalGateway.t) : res dict :=
  let headers := [(u "Content-Type", JStr (u "application/json"))] in
  if truthy (ExternalGateway.headers self) then
    match json_loads (float_repr P) (ExternalGateway.headers self) with
    | Some (JObj custom_headers) => Ret (dict_update headers custom_headers)
    | Some custom_headers => update_from_iterable P headers custom_headers
    | None => Ret headers
    end
  else Ret headers.

(** The parameters built from [params_template]: the decoded template
    is dumped, the three tokens are replaced in the text, and the text
    is decoded again; a decoding error at either end leaves [{}]. *)
Definition template_params (self : ExternalGateway.t)
           (message phone_number : str) : json :=
  if truthy (ExternalGateway.params_template self) then
    match json_loads (float_repr P) (ExternalGateway.params_template self) with
    | Some template =>
      let params_str := json_dumps template in
      let params_str := replace (u "{phone}") phone_number params_str in
      let params_str := replace (u "{message}") message params_str in
      let params_str :=
        if truthy (ExternalGateway.api_key_value self)
           && contains (u "{api_key}") params_str
        then replace (u "{api_key}") (ExternalGateway.api_key_value self)
               params_str
        else params_str in
      match json_loads (float_repr P) params_str with
      | Some params => params
      | None => JObj []
      end
    | None => JObj []
    end
  else JObj [].

(** The individual parameters laid over the template's. *)
Definition external_params (self : ExternalGateway.t)
           (message phone_number : str) : res json :=
  let params := template_params self message phone_number in
  match
    (if truthy (ExternalGateway.recipient_param self) && truthy phone_number
     then setitem params (ExternalGateway.recipient_param self)
            (JStr phone_number)
     else Ret params)
  with
  | Raise e => Raise e
  | Ret params =>
    match
      (if truthy (ExternalGateway.message_param self) && truthy message
       then setitem params (ExternalGateway.message_param self) (JStr message)
       else Ret params)
    with
    | Raise e => Raise e
    | Ret params =>
      if truthy (ExternalGateway.api_key_param self)
         && truthy (ExternalGateway.api_key_value self)
      then setitem params (ExternalGateway.api_key_param self)
             (JStr (ExternalGateway.api_key_value self))
      else Ret params
    end
  end.

(** The request of [_send_external_message]. *)
Definition external_request (self : ExternalGateway.t)
           (message phone_number : str) : res http_request :=
  match external_headers self with
  | Raise e => Raise e
  | Ret headers =>
    match external_params self message phone_number with
    | Raise e => Raise e
    | Ret params =>
      if str_eqb (ExternalGateway.method self) (u "GET") then
        Ret {| rq_method := u "GET"; rq_url := ExternalGateway.url self;
               rq_params := Some params; rq_json := None;
               rq_headers := headers; rq_timeout := 30 |}
      else
        Ret {| rq_method := u "POST"; rq_url := ExternalGateway.url self;
               rq_params := None; rq_json := Some params;
               rq_headers := headers; rq_timeout := 30 |}
    end
  end.

(** [except requests.exceptions.RequestException as e: raise
    UserError(prefix % str(e))]; any other exception passes. *)
Definition wrap_request_exception (prefix : str) (r : res send_result)
  : res send_result :=
  match r with
  | Raise e =>
    match exn_class_of e with
    | RequestException => Raise (raise_of UserError (prefix ++ exn_text e))
    | _ => Raise e
    end
  | Ret x => Ret x
  end.

(** The call, [raise_for_status] and the returned dictionary. *)
Definition perform (rq : http_request) : M send_result :=
  response <- send_request rq ;;
  lift (raise_for_status response) ;;;
  ret {| sr_status_code := status_code response;
         sr_response_body := text response;
         sr_success := true |}.

(** [WhatsAppExternalGateway._send_external_message] *)
Definition _send_external_message (self : ExternalGateway.t)
           (message phone_number : str) : M send_result :=
  fun w =>
    let (w', r) :=
      (rq <- lift (external_request self message phone_number) ;;
       perform rq) w in
    (w', wrap_request_exception (u "Failed to send WhatsApp message: ") r).

(** [WhatsAppMetaGateway._send_meta_message] *)
Definition meta_request (self : MetaGateway.t)
           (message phone_number : str) : http_request :=
  let clean_phone := lstrip_plus phone_number in
  let headers :=
    [(u "Authorization", JStr (u "Bearer " ++ MetaGateway.access_token self));
     (u "Content-Type", JStr (u "application/json"))] in
  let payload :=
    JObj [(u "messaging_product", JStr (u "whatsapp"));
          (u "to", JStr clean_phone);
          (u "type", JStr (u "text"));
          (u "text", JObj [(u "body", JStr message)])] in
  {| rq_method := u "POST"; rq_url := MetaGateway.endpoint_template self;
     rq_params := None; rq_json := Some payload;
     rq_headers := headers; rq_timeout := 30 |}.

Definition _send_meta_message (self : MetaGateway.t)
           (message phone_number : str) : M send_result :=
  fun w =>
    let (w', r) := perform (meta_request self message phone_number) w in
    (w', wrap_request_exception
           (u "Failed to send WhatsApp message via Meta: ") r).

(** [WhatsAppGateway._log_message]: one row is created; [create] is an
    insertion, the field checks of the ORM are not the addon's. *)
Definition _log_message (self : Gateway.t) (message phone_number : str)
           (st : status) (response_code : Z) (response_body : str)
           (model : str) (res_id : Z) : M unit :=
  modify (fun w =>
    set_logs (logs w ++
      [{| Log.gateway_id := Some (Gateway.id self);
          Log.type := Gateway.type self;
          Log.message := message;
          Log.phone_number := phone_number;
          Log.status := st;
          Log.response_code := dec response_code;
          Log.response_body := response_body;
          Log.timestamp := now w;
          Log.res_model := model;
          Log.res_id := res_id |}]) w).

(** [WhatsAppGateway._write_to_chatter]: best effort, every exception
    is swallowed. *)
Definition _write_to_chatter (self : Gateway.t) (model : str) (res_id : Z)
           (message phone_number : str) (ok : bool) (error_msg : str)
  : M unit :=
  modify (fun w =>
    if postable P model res_id then
      let body :=
        if ok
        then u "WhatsApp message sent to " ++ phone_number ++ u ": " ++ message
        else u "WhatsApp message failed to " ++ phone_number ++ u ": "
               ++ message ++ [10] ++ u "Error: " ++ error_msg in
      let subtype_xmlid := if ok then u "mail.mt_note" else u "mail.mt_comment" in
      set_chatter (chatter w ++
        [{| note_model := model; note_res_id := res_id;
            note_body := body; note_subtype := subtype_xmlid |}]) w
    else w).

(** The [try] block of [send_whatsapp_async] up to the send: the
    normalised number when normalisation succeeded, and the outcome. *)
Definition dispatch (self : Gateway.t) (message phone_number : str)
  : world -> world * str * res send_result :=
  fun w =>
    match _clean_phone_number phone_number with
    | Raise e => (w, phone_number, Raise e)
    | Ret phone_number =>
      let (w', r) :=
        (if str_eqb (Gateway.type self) (u "external_rest") then
           match browse_external w (Gateway.id self) with
           | Some gateway => _send_external_message gateway message phone_number
           | None =>
             raise (raise_of MissingError
                      (missing_record_text P (u "whatsapp.external.gateway")
                         (Gateway.id self)))
           end
         else if str_eqb (Gateway.type self) (u "meta_cloud_api") then
           match browse_meta w (Gateway.id self) with
           | Some gateway => _send_meta_message gateway message phone_number
           | None =>
             raise (raise_of MissingError
                      (missing_record_text P (u "whatsapp.meta.gateway")
                         (Gateway.id self)))
           end
         else
           raise (raise_of UserError
                    (u "Unknown gateway type: " ++ Gateway.type self))) w in
      (w', phone_number, r)
    end.

(** [WhatsAppGateway.send_whatsapp_async]: on success the outcome is
    logged, noted on the chatter and [True] is returned; the [except]
    clause logs the error, notes it and raises it again.  [template_id]
    is accepted and not used. *)
Definition send_whatsapp_async (self : Gateway.t) (message phone_number : str)
           (model : str) (res_id : Z) (template_id : option N) : M bool :=
  fun w =>
    let '(w1, phone_number, r) := dispatch self message phone_number w in
    match r with
    | Ret response =>
      (_log_message self message phone_number success
         (sr_status_code response) (sr_response_body response) model res_id ;;;
       (if truthy model && negb (res_id =? 0)%Z
        then _write_to_chatter self model res_id message phone_number true []
        else ret tt) ;;;
       ret true) w1
    | Raise e =>
      (_log_message self message phone_number error
         (match exn_status_code e with Some c => c | None => 500%Z end)
         (exn_text e) model res_id ;;;
       (if truthy model && negb (res_id =? 0)%Z
        then _write_to_chatter self model res_id message phone_number false
               (exn_text e)
        else ret tt) ;;;
       raise e) w1
    end.

(** [WhatsAppGatewayLog.action_retry_send] *)
Definition action_retry_send (self : Log.t) : M (option notification) :=
  fun w =>
    match Log.status self with
    | success => (w, Ret None)
    | error =>
      let refused :=
        (w, Ret (Some {| notif_message :=
                           u "Gateway is not active or does not exist";
                         notif_type := u "warning" |})) in
      match Log.gateway_id self with
      | None => refused
      | Some i =>
        match browse_gateway w i with
        | None =>
          (w, Raise (raise_of MissingError
                       (missing_record_text P (u "whatsapp.gateway") i)))
        | Some gateway =>
          if Gateway.active gateway then
            (set_queue (queue w ++
               [{| job_gateway := Gateway.id gateway;
                   job_message := Log.message self;
                   job_phone_number := Log.phone_number self;
                   job_model := Log.res_model self;
                   job_res_id := Log.res_id self |}]) w,
             Ret (Some {| notif_message := u "Message queued for retry";
                          notif_type := u "success" |}))
          else refused
        end
      end
    end.
End Core.

(* ================================================================== *)
(** ** Templates: [whatsapp.template] *)

(** The matches of the pattern [\$\{([^}]+)\}] in [s], left to right and
    without overlap, as [re.findall] returns them: the text between the
    braces.  A match starts at ["${"], runs over every character that is
    not ["}"] (at least one) and ends at the first ["}"]; when the string
    ends first there is no match from there on, and after ["${}"] the scan
    goes on behind it.  [inside acc t] is the scanner after ["${"] and the
    characters [rev acc]. *)
Fixpoint findall_placeholders (s : str) : list str :=
  match s with
  | [] => []
  | c :: t =>
    if c =? chr "$" then
      match t with
      | c' :: t' =>
        if c' =? chr "{" then inside [] t' else findall_placeholders t
      | [] => []
      end
    else findall_placeholders t
  end
with inside (acc : str) (s : str) : list str :=
  match s with
  | [] => []
  | c :: t =>
    if c =? chr "}" then
      match acc with
      | [] => findall_placeholders t
      | _ :: _ => rev acc :: findall_placeholders t
      end
    else inside (c :: acc) t
  end.

(** The whole match, ['${%s}' % placeholder]. *)
Definition token (placeholder : str) : str :=
  u "${" ++ placeholder ++ u "}".

(** A Python object as the renderer sees it: whether it is [None], its
    [str()], and its attributes ([hasattr] / [getattr]). *)
Inductive pyval :=
| PyVal (is_none : bool) (repr : str) (attrs : list (str * pyval)).

Definition is_none (v : pyval) : bool := let (n, _, _) := v in n.
Definition str_of (v : pyval) : str := let (_, r, _) := v in r.
Definition attrs_of (v : pyval) : list (str * pyval) := let (_, _, a) := v in a.

Fixpoint lookup_attr (name : str) (a : list (str * pyval)) : option pyval :=
  match a with
  | [] => None
  | (k, v) :: a' => if str_eqb name k then Some v else lookup_attr name a'
  end.
Definition getattr (v : pyval) (name : str) : option pyval :=
  lookup_attr name (attrs_of v).

(** A Python string as a value (its methods are not listed). *)
Definition py_str (s : str) : pyval := PyVal false s [].

(** [self.env.user] and [self.env.company]. *)
Record environment := {
  env_user : pyval;
  env_company : pyval
}.

(** The three loops of [_resolve_placeholder] over [parts[1:]].  They
    differ in the label of the error and in that only the one over the
    record stops with [''] at a [None]. *)
Fixpoint walk (label : str) (stop_at_none : bool) (current : pyval)
         (parts : list str) : res pyval :=
  match parts with
  | [] => Ret current
  | part :: parts' =>
    match getattr current part with
    | Some v =>
      if stop_at_none && is_none v then Ret (py_str [])
      else walk label stop_at_none v parts'
    | None =>
      Raise (raise_of ValueError (label ++ part ++ u " not found"))
    end
  end.

(** [WhatsAppTemplate._resolve_placeholder]: [parts[0]] selects the root
    and [parts[1:]] is walked from it. *)
Definition _resolve_placeholder (env : environment) (placeholder : str)
           (record : pyval) : res pyval :=
  let parts := split_dot placeholder in
  let root := hd [] parts in
  if str_eqb root (u "object") then
    walk (u "Field ") true record (tl parts)
  else if str_eqb root (u "user") then
    walk (u "User field ") false (env_user env) (tl parts)
  else if str_eqb root (u "company") then
    walk (u "Company field ") false (env_company env) (tl parts)
  else Raise (raise_of ValueError (u "Unknown placeholder root: " ++ root)).

(** What one placeholder is replaced with:
    [str(value) if value is not None else ''], or the error marker
    [f'[Error: {str(e)}]'] when the resolution raises. *)
Definition value_text (value : pyval) : str :=
  if is_none value then [] else str_of value.

Definition error_marker (e : exn) : str :=
  u "[Error: " ++ exn_text e ++ u "]".

Definition substitution (env : environment) (record : pyval)
           (placeholder : str) : str :=
  match _resolve_placeholder env placeholder record with
  | Ret value => value_text value
  | Raise e => error_marker e
  end.

(** [WhatsAppTemplate._render_template_content] *)
Definition _render_template_content (env : environment) (content : str)
           (record : pyval) : str :=
  if negb (truthy content) then []
  else
    fold_left
      (fun rendered placeholder =>
         replace (token placeholder) (substitution env record placeholder)
           rendered)
      (findall_placeholders content) content.

(** [WhatsAppTemplate._check_template_syntax] on one template body. *)
Definition valid_token (placeholder : str) : bool :=
  startswith (u "${object.") placeholder
  || startswith (u "${user.") placeholder
  || startswith (u "${company.") placeholder.

Fixpoint check_placeholders (placeholders : list str) : res unit :=
  match placeholders with
  | [] => Ret tt
  | placeholder :: rest =>
    if negb (valid_token placeholder) then
      Raise (raise_of ValidationError
               (u "Invalid placeholder: " ++ placeholder
                  ++ u ". Use ${object.field_name}, ${user.field_name}, or ${company.field_name}"))
    else check_placeholders rest
  end.

Definition _check_template_syntax (body : str) : res unit :=
  if truthy body
  then check_placeholders (map token (findall_placeholders body))
  else Ret tt.

(* ================================================================== *)
(** ** Notions used to state the properties *)

(** The root segment of a placeholder and the three known roots. *)
Definition root_of (placeholder : str) : str := hd [] (split_dot placeholder).

Definition known_root (root : str) : bool :=
  str_eqb root (u "object") || str_eqb root (u "user")
  || str_eqb root (u "company").

(** Rendering by span replacement, as the specification words it: the
    text between the matches is copied and every match is replaced, where
    it stands, by the substitution of its placeholder.  The scanner is
    the one of [findall_placeholders]. *)
Fixpoint span_render (subst : str -> str) (s : str) : str :=
  match s with
  | [] => []
  | c :: t =>
    if c =? chr "$" then
      match t with
      | c' :: t' =>
        if c' =? chr "{" then span_inside subst [] t'
        else c :: span_render subst t
      | [] => [c]
      end
    else c :: span_render subst t
  end
with span_inside (subst : str -> str) (acc : str) (s : str) : str :=
  match s with
  | [] => u "${" ++ rev acc
  | c :: t =>
    if c =? chr "}" then
      match acc with
      | [] => u "${}" ++ span_render subst t
      | _ :: _ => subst (rev acc) ++ span_render subst t
      end
    else span_inside subst (c :: acc) t
  end.

(** A body given by its pieces: literal text and placeholders. *)
Inductive segment :=
| Lit (text : str)
| Hole (placeholder : str).

Definition segment_text (seg : segment) : str :=
  match seg with
  | Lit s => s
  | Hole p => token p
  end.

Definition body_of (segs : list segment) : str := flat_map segment_text segs.

Definition holes (segs : list segment) : list str :=
  flat_map (fun seg => match seg with Lit _ => [] | Hole p => [p] end) segs.

(** The body with every placeholder filled in where it stands. *)
Definition filled (subst : str -> str) (segs : list segment) : str :=
  flat_map (fun seg => match seg with Lit s => s | Hole p => subst p end) segs.

(** No ["}"] in a text. *)
Definition brace_free (s : str) : bool :=
  forallb (fun c => negb (c =? chr "}")) s.

(** Two worlds that differ at most in the requests sent. *)
Definition only_sent (w w' : world) : Prop :=
  logs w' = logs w /\ now w' = now w /\ queue w' = queue w /\
  chatter w' = chatter w.

(** The request that carries a JSON body to [url] with the default
    header. *)
Definition post_json (url : str) (body : json) : http_request :=
  {| rq_method := u "POST"; rq_url := url;
     rq_params := None; rq_json := Some body;
     rq_headers := [(u "Content-Type", JStr (u "application/json"))];
     rq_timeout := 30 |}.

(** A platform and a world to run the model on: every request is
    answered [200 OK], every record can be posted to. *)
Definition sample_platform : platform :=
  {| float_repr := fun lit => lit;
     update_from_iterable := fun d _ => Ret d;
     http := fun _ rq =>
       Ret {| status_code := 200; reason := u "OK"; resp_url := rq_url rq;
              text := uq "{'sent': true}" |};
     missing_record_text := fun _ _ =>
       u "Record does not exist or has been deleted.";
     postable := fun _ _ => true |}.

(** The same network, answering [503]. *)
Definition failing_platform : platform :=
  {| float_repr := fun lit => lit;
     update_from_iterable := fun d _ => Ret d;
     http := fun _ rq =>
       Ret {| status_code := 503; reason := u "Service Unavailable";
              resp_url := rq_url rq; text := [] |};
     missing_record_text := fun _ _ =>
       u "Record does not exist or has been deleted.";
     postable := fun _ _ => true |}.

Definition sample_gateway : Gateway.t :=
  {| Gateway.id := 1; Gateway.name := u "Rest";
     Gateway.type := u "external_rest"; Gateway.active := true |}.

Definition idle_gateway : Gateway.t :=
  {| Gateway.id := 2; Gateway.name := u "Old";
     Gateway.type := u "meta_cloud_api"; Gateway.active := false |}.

Definition sample_external : ExternalGateway.t :=
  {| ExternalGateway.id := 1; ExternalGateway.gateway_id := 1;
     ExternalGateway.url := u "https://gw.example/send";
     ExternalGateway.method := u "POST";
     ExternalGateway.recipient_param := u "to";
     ExternalGateway.message_param := u "message";
     ExternalGateway.api_key_param := [];
     ExternalGateway.api_key_value := [];
     ExternalGateway.headers := [];
     ExternalGateway.params_template :=
       uq "{'to':'{phone}','message':'{message}'}" |}.

Definition sample_world : world :=
  {| gateways := [sample_gateway; idle_gateway];
     external_gateways := [sample_external];
     meta_gateways := [];
     logs := []; queue := []; chatter := []; sent := [];
     now := 1700000000 |}.

(** Two entries of the log of [sample_world]'s gateways: one delivered
    through the active gateway, one failed through the inactive one. *)
Definition delivered_entry : Log.t :=
  {| Log.gateway_id := Some 1; Log.type := u "external_rest";
     Log.message := u "Hello"; Log.phone_number := u "393331234567";
     Log.status := success; Log.response_code := u "200";
     Log.response_body := uq "{'sent': true}";
     Log.timestamp := 1699999000;
     Log.res_model := u "res.partner"; Log.res_id := 7 |}.

Definition failed_entry (gateway : option N) : Log.t :=
  {| Log.gateway_id := gateway; Log.type := u "meta_cloud_api";
     Log.message := u "Hello"; Log.phone_number := u "+15551234567";
     Log.status := error; Log.response_code := u "500";
     Log.response_body := u "Failed to send WhatsApp message via Meta: timeout";
     Log.timestamp := 1699999000;
     Log.res_model := u "res.partner"; Log.res_id := 7 |}.

(** The two notifications of [action_retry_send] and the job it queues. *)
Definition retry_warning : notification :=
  {| notif_message := u "Gateway is not active or does not exist";
     notif_type := u "warning" |}.

Definition retry_queued : notification :=
  {| notif_message := u "Message queued for retry";
     notif_type := u "success" |}.

Definition retry_job (gateway : Gateway.t) (entry : Log.t) : job :=
  {| job_gateway := Gateway.id gateway;
     job_message := Log.message entry;
     job_phone_number := Log.phone_number entry;
     job_model := Log.res_model entry;
     job_res_id := Log.res_id entry |}.

(** The body in the middle of a rendering: the placeholders listed in
    [done] are already replaced, the others still stand as tokens. *)
Definition filled_where (done : list str) (subst : str -> str)
           (segs : list segment) : str :=
  flat_map
    (fun seg =>
       match seg with
       | Lit s => s
       | Hole p => if existsb (str_eqb p) done then subst p else token p
       end) segs.

(** A record named "Ana" whose [comment] field is the text of another
    placeholder, and a company named "Acme". *)
Definition sample_record : pyval :=
  PyVal false (u "res.partner(7,)")
    [(u "name", py_str (u "Ana"));
     (u "comment", py_str (u "${company.name}"));
     (u "parent_id", PyVal true (u "None") [])].

Definition sample_env : environment :=
  {| env_user := PyVal false (u "res.users(2,)") [(u "name", py_str (u "Admin"))];
     env_company :=
       PyVal false (u "res.company(1,)") [(u "name", py_str (u "Acme"))] |}.

(** No ["."] in a text. *)
Definition dot_free (s : str) : bool :=
  forallb (fun c => negb (c =? chr ".")) s.


(** A body whose first placeholder resolves to the text of its second
    one, and a body with one resolvable and one unresolvable
    placeholder. *)
Definition nested_body : str := u "${object.comment} / ${company.name}".

Definition greeting_segments : list segment :=
  [Lit (u "Hi "); Hole (u "object.name"); Lit (u ", welcome to ");
   Hole (u "company.name")].

(* ================================================================== *)
(** ** Counters, partners, leads and the send wizard *)

(** [search_count] over the log with a domain. *)
Definition search_count (domain : Log.t -> bool) (w : world) : nat :=
  List.length (filter domain (logs w)).

(** [WhatsAppGateway._compute_log_count]: the domain
    [[('gateway_id', '=', gateway.id)]]. *)
Definition _compute_log_count (w : world) (gateway : Gateway.t) : nat :=
  search_count
    (fun l => match Log.gateway_id l with
              | Some i => i =? Gateway.id gateway
              | None => false
              end) w.

(** [a or b] on strings. *)
Definition py_or (a b : str) : str := if truthy a then a else b.

(** What an action method hands back to the client: a notification or
    the send wizard opened with a context. *)
Inductive action :=
| DisplayNotification (title message kind : str)
| OpenSendWizard (active_model : str) (active_id : Z)
                 (default_phone_number : str).

Module Partner.
(** [res.partner] with the field the addon adds. *)
Record t := {
  id : Z;
  name : str;
  whatsapp_number : str;
  mobile : str;
  phone : str
}.

(** [ResPartner.get_whatsapp_phone] *)
Definition get_whatsapp_phone (self : t) : str :=
  py_or (whatsapp_number self) (py_or (mobile self) (phone self)).

(** [ResPartner._compute_whatsapp_log_count] *)
Definition _compute_whatsapp_log_count (w : world) (self : t) : nat :=
  search_count
    (fun l => str_eqb (Log.res_model l) (u "res.partner")
              && (Log.res_id l =? id self)%Z) w.

(** [ResPartner.action_send_whatsapp] *)
Definition action_send_whatsapp (self : t) : action :=
  let phone_number :=
    py_or (whatsapp_number self) (py_or (mobile self) (phone self)) in
  if negb (truthy phone_number) then
    DisplayNotification (u "No Phone Number")
      (u "No phone number found for " ++ name self
         ++ u ". Please set a phone, mobile, or WhatsApp number.")
      (u "warning")
  else OpenSendWizard (u "res.partner") (id self) phone_number.
End Partner.

Module Lead.
(** [crm.lead]; [partner_id] is [None] for an empty many-to-one. *)
Record t := {
  id : Z;
  name : str;
  mobile : str;
  phone : str;
  partner_id : option Partner.t
}.

(** [CrmLead._compute_whatsapp_log_count] *)
Definition _compute_whatsapp_log_count (w : world) (self : t) : nat :=
  search_count
    (fun l => str_eqb (Log.res_model l) (u "crm.lead")
              && (Log.res_id l =? id self)%Z) w.

(** [CrmLead.action_send_whatsapp] *)
Definition action_send_whatsapp (self : t) : action :=
  let phone_number := py_or (mobile self) (phone self) in
  let phone_number :=
    if negb (truthy phone_number) then
      match partner_id self with
      | Some partner => Partner.get_whatsapp_phone partner
      | None => phone_number
      end
    else phone_number in
  if negb (truthy phone_number) then
    DisplayNotification (u "No Phone Number")
      (u "No phone number found for " ++ name self
         ++ u ". Please set a phone or mobile number.")
      (u "warning")
  else OpenSendWizard (u "crm.lead") (id self) phone_number.
End Lead.

(** [str.isspace] on one character, which is what [str.strip()] removes
    (table of Unicode 14). *)
Definition space_ranges : list (N * N) :=
  [(9, 13); (28, 32); (133, 133); (160, 160); (5760, 5760); (8192, 8202);
   (8232, 8233); (8239, 8239); (8287, 8287); (12288, 12288)].

Definition isspace (c : char) : bool := in_ranges space_ranges c.

Fixpoint lstrip (s : str) : str :=
  match s with
  | c :: t => if isspace c then lstrip t else s
  | [] => []
  end.

(** [s.strip()] *)
Definition strip (s : str) : str := rev (lstrip (rev (lstrip s))).

(** The notification of the client action [display_notification], with
    its title and stickiness. *)
Record client_notification := {
  cn_title : str;
  cn_message : str;
  cn_type : str;
  cn_sticky : bool
}.

Module Wizard.
(** [whatsapp.send.wizard] *)
Record t := {
  gateway_id : N;
  template_id : option N;
  message : str;
  phone_number : str;
  res_model : str;
  res_id : Z
}.

(** [WhatsAppSendWizard.action_send_message].  [delayed] is what
    [with_delay().send_whatsapp_async(...)] does in the job queue: the
    uuid of the job it creates, or an exception.  The job record keeps
    the arguments the dispatcher uses; [template_id] is not among
    them. *)
Definition action_send_message (delayed : res str) (self : t)
  : M client_notification :=
  fun w =>
    if negb (truthy (strip (message self))) then
      (w, Raise (raise_of UserError (u "Message content is required")))
    else if negb (truthy (strip (phone_number self))) then
      (w, Raise (raise_of UserError (u "Phone number is required")))
    else
      match delayed with
      | Ret uuid =>
        (set_queue (queue w ++
           [{| job_gateway := gateway_id self;
               job_message := message self;
               job_phone_number := phone_number self;
               job_model := res_model self;
               job_res_id := res_id self |}]) w,
         Ret {| cn_title := u "Message Queued";
                cn_message :=
                  u "WhatsApp message has been queued for sending. Job ID: "
                    ++ uuid;
                cn_type := u "success";
                cn_sticky := false |})
      | Raise e =>
        (w, Raise (raise_of UserError
                     (u "Failed to queue message: " ++ exn_text e)))
      end.

(** The keys of the context and of the dictionary of defaults that
    [default_get] reads and writes; [None] is an absent key. *)
Record context := {
  active_model : str;
  active_id : Z;
  default_gateway_id : option N;
  default_template_id : option N
}.

Record defaults := {
  d_res_model : option str;
  d_res_id : option Z;
  d_phone_number : option str;
  d_gateway_id : option N;
  d_template_id : option N
}.

(** The loop over [phone_fields]: the first field the record has with a
    truthy value.  A record is given by its character fields. *)
Fixpoint first_phone (record : list (str * str)) (phone_fields : list str)
  : option str :=
  match phone_fields with
  | [] => None
  | field :: rest =>
    match find (fun kv => str_eqb field (fst kv)) record with
    | Some (_, value) =>
      if truthy value then Some value else first_phone record rest
    | None => first_phone record rest
    end
  end.

(** [WhatsAppSendWizard.default_get].  [inherited] is what
    [super().default_get(fields_list)] returned; [record] is the source
    record when [env[active_model].browse(active_id)] exists, [None] when
    it does not or the lookup raises. *)
Definition default_get (inherited : defaults) (ctx : context)
           (record : option (list (str * str))) : defaults :=
  let d :=
    if truthy (active_model ctx) && negb (active_id ctx =? 0)%Z then
      let phone :=
        match record with
        | Some fields =>
          match first_phone fields
                  [u "mobile"; u "phone"; u "phone_number"; u "whatsapp_number"]
          with
          | Some value => Some value
          | None => d_phone_number inherited
          end
        | None => d_phone_number inherited
        end in
      {| d_res_model := Some (active_model ctx);
         d_res_id := Some (active_id ctx);
         d_phone_number := phone;
         d_gateway_id := d_gateway_id inherited;
         d_template_id := d_template_id inherited |}
    else inherited in
  let d :=
    match default_gateway_id ctx with
    | Some g =>
      if negb (g =? 0) then
        {| d_res_model := d_res_model d; d_res_id := d_res_id d;
           d_phone_number := d_phone_number d;
           d_gateway_id := Some g; d_template_id := d_template_id d |}
      else d
    | None => d
    end in
  match default_template_id ctx with
  | Some t =>
    if negb (t =? 0) then
      {| d_res_model := d_res_model d; d_res_id := d_res_id d;
         d_phone_number := d_phone_number d;
         d_gateway_id := d_gateway_id d; d_template_id := Some t |}
    else d
  | None => d
  end.
End Wizard.

(** The character fields of a partner, as the wizard reads them. *)
Definition partner_fields (p : Partner.t) : list (str * str) :=
  [(u "name", Partner.name p); (u "phone", Partner.phone p);
   (u "mobile", Partner.mobile p);
   (u "whatsapp_number", Partner.whatsapp_number p)].

(** The platform with another chatter. *)
Definition with_postable (P : platform) (f : str -> Z -> bool) : platform :=
  {| float_repr := float_repr P;
     update_from_iterable := update_from_iterable P;
     http := http P;
     missing_record_text := missing_record_text P;
     postable := f |}.

(** The binding of [k] that [d.update(m)] leaves: the last one in [m]. *)
Definition last_binding (k : str) (m : dict) : option json :=
  dict_get k (rev m).

(** [WhatsAppExternalGateway._check_json_fields] on one record: both
    fields, when set, must decode. *)
Definition _check_json_fields (P : platform) (self : ExternalGateway.t)
  : res unit :=
  match
    (if truthy (ExternalGateway.headers self) then
       match json_loads (float_repr P) (ExternalGateway.headers self) with
       | Some _ => Ret tt
       | None =>
         Raise (raise_of ValidationError (u "Headers must be valid JSON"))
       end
     else Ret tt)
  with
  | Raise e => Raise e
  | Ret _ =>
    if truthy (ExternalGateway.params_template self) then
      match json_loads (float_repr P) (ExternalGateway.params_template self)
      with
      | Some _ => Ret tt
      | None =>
        Raise (raise_of ValidationError
                 (u "Parameters template must be valid JSON"))
      end
    else Ret tt
  end.

(** Sample records for the examples. *)
Definition sample_partner : Partner.t :=
  {| Partner.id := 7; Partner.name := u "Ana";
     Partner.whatsapp_number := u "+39 333 1234567";
     Partner.mobile := u "06 12345"; Partner.phone := [] |}.

Definition sample_lead : Lead.t :=
  {| Lead.id := 3; Lead.name := u "Deal"; Lead.mobile := [];
     Lead.phone := []; Lead.partner_id := Some sample_partner |}.

Definition sample_wizard : Wizard.t :=
  {| Wizard.gateway_id := 1; Wizard.template_id := None;
     Wizard.message := u " Hello "; Wizard.phone_number := u "333 1234567";
     Wizard.res_model := u "res.partner"; Wizard.res_id := 7 |}.

Definition sample_meta : MetaGateway.t :=
  {| MetaGateway.id := 2; MetaGateway.gateway_id := 2;
     MetaGateway.phone_number_id := u "123";
     MetaGateway.access_token := u "token";
     MetaGateway.sender_name := [] |}.

(** Whether a decoded document is an object, which is what item
    assignment needs. *)
Definition is_object (j : json) : bool :=
  match j with JObj _ => true | _ => false end.

(** An external gateway whose template is valid JSON and a list. *)
Definition list_template_external : ExternalGateway.t :=
  {| ExternalGateway.id := 5; ExternalGateway.gateway_id := 5;
     ExternalGateway.url := u "https://gw.example/send";
     ExternalGateway.method := u "POST";
     ExternalGateway.recipient_param := u "to";
     ExternalGateway.message_param := u "message";
     ExternalGateway.api_key_param := [];
     ExternalGateway.api_key_value := [];
     ExternalGateway.headers := uq "{'X-Key': 'k', 'Content-Type': 'text/plain'}";
     ExternalGateway.params_template := uq "['{phone}']" |}.


(** A partner with a mobile number only, and its context in the wizard. *)
Definition mobile_partner : Partner.t :=
  {| Partner.id := 8; Partner.name := u "Bo";
     Partner.whatsapp_number := []; Partner.mobile := u "347 000 1111";
     Partner.phone := u "06 555" |}.

Definition partner_context (p : Partner.t) : Wizard.context :=
  {| Wizard.active_model := u "res.partner";
     Wizard.active_id := Partner.id p;
     Wizard.default_gateway_id := None;
     Wizard.default_template_id := None |}.

Definition no_defaults : Wizard.defaults :=
  {| Wizard.d_res_model := None; Wizard.d_res_id := None;
     Wizard.d_phone_number := None; Wizard.d_gateway_id := None;
     Wizard.d_template_id := None |}.

(** The job the wizard queues. *)
Definition wizard_job (self : Wizard.t) : job :=
  {| job_gateway := Wizard.gateway_id self;
     job_message := Wizard.message self;
     job_phone_number := Wizard.phone_number self;
     job_model := Wizard.res_model self;
     job_res_id := Wizard.res_id self |}.

(** The first non-empty string of a list, [''] when there is none. *)
Definition first_truthy (l : list str) : str :=
  match find truthy l with
  | Some s => s
  | None => []
  end.

(** The default of the field [params_template]. *)
Definition default_params_template : str :=
  uq "{'to': '{phone}', 'message': '{message}'}".

(** A character that can stand as it is inside a JSON string: no quote,
    no backslash, no control character. *)
Definition json_plain (c : char) : bool :=
  negb (c =? dquote) && negb (c =? 92) && (31 <? c).

(** An external gateway with every field at its default. *)
Definition default_external : ExternalGateway.t :=
  {| ExternalGateway.id := 6; ExternalGateway.gateway_id := 6;
     ExternalGateway.url := u "https://gw.example/send";
     ExternalGateway.method := u "POST";
     ExternalGateway.recipient_param := u "to";
     ExternalGateway.message_param := u "message";
     ExternalGateway.api_key_param := [];
     ExternalGateway.api_key_value := [];
     ExternalGateway.headers := [];
     ExternalGateway.params_template := default_params_template |}.

(** The pieces of a body as the scanner of [findall_placeholders] cuts
    it: every match is a [Hole], every other character a [Lit]; an
    empty ["${}"] and a ["${"] that is never closed are literal text. *)
Fixpoint segments (s : str) : list segment :=
  match s with
  | [] => []
  | c :: t =>
    if c =? chr "$" then
      match t with
      | c' :: t' =>
        if c' =? chr "{" then segments_inside [] t'
        else Lit [c] :: segments t
      | [] => [Lit [c]]
      end
    else Lit [c] :: segments t
  end
with segments_inside (acc : str) (s : str) : list segment :=
  match s with
  | [] => [Lit (u "${" ++ rev acc)]
  | c :: t =>
    if c =? chr "}" then
      match acc with
      | [] => Lit (u "${}") :: segments t
      | _ :: _ => Hole (rev acc) :: segments t
      end
    else segments_inside (c :: acc) t
  end.

(** The text in the middle of a rendering, cut at the places where the
    placeholder [q] still stands: the placeholders in [done] are replaced
    by their substitutions, every other one is still its token.  [cur] is
    the chunk being collected. *)
Fixpoint chunks (q : str) (done : list str) (subst : str -> str)
         (segs : list segment) (cur : str) : list str :=
  match segs with
  | [] => [cur]
  | Lit s :: rest => chunks q done subst rest (cur ++ s)
  | Hole p :: rest =>
    if existsb (str_eqb p) done then chunks q done subst rest (cur ++ subst p)
    else if str_eqb p q then cur :: chunks q done subst rest []
    else chunks q done subst rest (cur ++ token p)
  end.

(** The token of [q] occurs in that text only where [q] still stands. *)
Definition token_only_in_place (q : str) (done : list str)
           (subst : str -> str) (segs : list segment) : bool :=
  forallb (fun chunk => negb (contains (token q) chunk))
          (chunks q done subst segs []).

(** No replacement of a rendering matches anything but the placeholder
    it is made for: when the placeholders [todo] are processed in turn,
    after those in [done], each token occurs in the text rendered so far
    only where its placeholder still stands. *)
Fixpoint no_rematch_from (subst : str -> str) (segs : list segment)
         (done todo : list str) : bool :=
  match todo with
  | [] => true
  | q :: todo' =>
    token_only_in_place q done subst segs
    && no_rematch_from subst segs (q :: done) todo'
  end.

Definition no_rematch (subst : str -> str) (body : str) : bool :=
  no_rematch_from subst (segments body) [] (findall_placeholders body).

(** The two placeholders of [nested_body] in the other order. *)
Definition reversed_body : str := u "${company.name} / ${object.comment}".

(** A record whose [comment] is the text of a placeholder that does not
    resolve, and a body with that placeholder behind the comment. *)
Definition echo_record : pyval :=
  PyVal false (u "res.partner(8,)")
    [(u "name", py_str (u "Bea"));
     (u "comment", py_str (u "${object.bogus}"))].

Definition echo_body : str := u "Note: ${object.comment} / ref ${object.bogus}.".

(** Two bodies with one placeholder that resolves on [sample_record] and
    one that does not, in both orders. *)
Definition marked_body : str := u "Hi ${object.name}, ref ${object.bogus}.".

Definition marked_body_reversed : str :=
  u "Hi ${object.bogus}, ref ${object.name}.".

(* ================================================================== *)
(** * Properties *)

Unset Implicit Arguments.

(** ** The phone normaliser *)

Lemma in_ranges_true (t : list (N * N)) (c : char) :
  in_ranges t c = true <-> exists lo hi, In (lo, hi) t /\ lo <= c <= hi.
Proof.
  unfold in_ranges. rewrite existsb_exists. split.
  - intros [[lo hi] [Hin H]]. exists lo, hi. split; [exact Hin|].
    simpl in H. apply andb_true_iff in H as [H1 H2].
    apply N.leb_le in H1. apply N.leb_le in H2. lia.
  - intros (lo & hi & Hin & H). exists (lo, hi). split; [exact Hin|].
    simpl. apply andb_true_iff. split; apply N.leb_le; lia.
Qed.

(** Below U+0080 the digits are ['0'] to ['9']. *)
Lemma isdigit_ascii (c : char) :
  isdigit c = true -> c < 128 -> is_ascii_digit c = true.
Proof.
  intros H Hc. apply in_ranges_true in H as (lo & hi & Hin & Hr).
  unfold is_ascii_digit. apply andb_true_iff.
  simpl in Hin.
  repeat (destruct Hin as [Hin | Hin];
          [injection Hin as <- <-; split; apply N.leb_le; lia|]).
  contradiction.
Qed.

Lemma ascii_digit_isdigit (c : char) :
  is_ascii_digit c = true -> isdigit c = true.
Proof.
  unfold is_ascii_digit. intros H. apply andb_true_iff in H as [H1 H2].
  apply N.leb_le in H1. apply N.leb_le in H2.
  apply in_ranges_true. exists 48, 57. split; [left; reflexivity | lia].
Qed.

Lemma filter_isdigit_digits (raw : str) :
  forallb isdigit (filter isdigit raw) = true.
Proof.
  apply forallb_forall. intros c Hc. apply filter_In in Hc. tauto.
Qed.

Lemma digits_no_plus (d : str) :
  forallb isdigit d = true -> startswith (u "+") d = false.
Proof.
  destruct d as [|c d]; [reflexivity|]. intros H.
  apply andb_true_iff in H as [Hc _].
  change (startswith (u "+") (c :: d)) with ((43 =? c) && true).
  destruct (N.eqb_spec 43 c) as [<- | _]; [discriminate Hc | reflexivity].
Qed.

(** The two outcomes of the normaliser on a non-empty input. *)
Lemma clean_phone_number_nonempty (raw : str) :
  raw <> [] ->
  _clean_phone_number raw =
    let cleaned := filter isdigit raw in
    if negb (startswith (u "39") cleaned) && (List.length cleaned =? 10)%nat
    then Ret (u "39" ++ cleaned) else Ret (u "+" ++ cleaned).
Proof.
  intros Hne. unfold _clean_phone_number.
  destruct raw as [|c raw]; [contradiction|].
  change (truthy (c :: raw)) with true. cbv beta iota delta [negb].
  cbv zeta.
  rewrite (digits_no_plus _ (filter_isdigit_digits (c :: raw))).
  reflexivity.
Qed.

Lemma existsb_filter_nonempty (raw : str) :
  existsb isdigit raw = true -> filter isdigit raw <> [].
Proof.
  intros H. apply existsb_exists in H as (c & Hin & Hc).
  intros E. assert (Hf : In c (filter isdigit raw))
    by (apply filter_In; split; assumption).
  rewrite E in Hf. exact Hf.
Qed.

Lemma existsb_false_filter (raw : str) :
  existsb isdigit raw = false -> filter isdigit raw = [].
Proof.
  induction raw as [|c raw IH]; [reflexivity|]. simpl.
  intros H. apply orb_false_iff in H as [Hc Hr].
  rewrite Hc. auto.
Qed.

(** C4, as the specification states it, fails: the input ["abc"] is not
    empty and has no digit, and the normaliser does not raise on it; it
    returns ["+"]. *)
Lemma clean_phone_number_abc_returns :
  u "abc" <> [] /\ existsb isdigit (u "abc") = false /\
  _clean_phone_number (u "abc") = Ret (u "+") /\
  ~ (exists e, _clean_phone_number (u "abc") = Raise e).
Proof.
  split; [discriminate|]. split; [reflexivity|]. split; [reflexivity|].
  intros [e He]. discriminate He.
Qed.

(** C4 (amended): the normaliser raises exactly when the raw string is
    empty, and the exception is the [UserError] "Phone number is
    required"; on a non-empty string without any digit it returns
    ["+"]. *)
Theorem clean_phone_number_raises_iff_empty (raw : str) :
  ((exists e, _clean_phone_number raw = Raise e) <-> raw = []) /\
  (raw = [] ->
   _clean_phone_number raw =
     Raise (raise_of UserError (u "Phone number is required"))) /\
  (raw <> [] -> existsb isdigit raw = false ->
   _clean_phone_number raw = Ret (u "+")).
Proof.
  split; [|split].
  - split.
    + intros [e He]. destruct raw as [|c raw]; [reflexivity|].
      rewrite clean_phone_number_nonempty in He by discriminate.
      cbv zeta in He.
      destruct (negb _ && _) in He; discriminate He.
    + intros ->. eexists. reflexivity.
  - intros ->. reflexivity.
  - intros Hne Hnd. rewrite clean_phone_number_nonempty by exact Hne.
    rewrite (existsb_false_filter _ Hnd). reflexivity.
Qed.

Lemma clean_phone_number_raises_iff_empty_witness :
  _clean_phone_number (u "abc") = Ret (u "+").
Proof.
  apply (proj2 (proj2 (clean_phone_number_raises_iff_empty (u "abc")))).
  - discriminate.
  - reflexivity.
Defined.

(** C5: on a raw string with at least one digit the normaliser returns,
    and what it returns starts with ["+"] or is the ten stripped digits
    behind the default country code ["39"]. *)
Theorem clean_phone_number_with_digit (raw : str) :
  existsb isdigit raw = true ->
  exists r,
    _clean_phone_number raw = Ret r /\
    (startswith (u "+") r = true \/
     (List.length (filter isdigit raw) = 10%nat /\
      r = u "39" ++ filter isdigit raw)).
Proof.
  intros Hd.
  assert (Hne : raw <> []) by (destruct raw; [discriminate Hd | discriminate]).
  rewrite clean_phone_number_nonempty by exact Hne. cbv zeta.
  destruct (negb (startswith (u "39") (filter isdigit raw))
            && (List.length (filter isdigit raw) =? 10)%nat) eqn:E.
  - eexists. split; [reflexivity|]. right.
    apply andb_true_iff in E as [_ E]. apply Nat.eqb_eq in E.
    split; [exact E | reflexivity].
  - eexists. split; [reflexivity|]. left. reflexivity.
Qed.

Lemma clean_phone_number_with_digit_witness :
  exists r,
    _clean_phone_number (u "+1 (555) 123-4567") = Ret r /\
    (startswith (u "+") r = true \/
     (List.length (filter isdigit (u "+1 (555) 123-4567")) = 10%nat /\
      r = u "39" ++ filter isdigit (u "+1 (555) 123-4567"))).
Proof.
  apply (clean_phone_number_with_digit (u "+1 (555) 123-4567")).
  reflexivity.
Defined.

(** C9, as stated, fails: [str.isdigit] accepts the superscript two
    (U+00B2), which is a digit and not a decimal digit, so the result for
    that input has a character that is no decimal digit behind its
    ["+"]. *)
Lemma clean_phone_number_superscript_two :
  _clean_phone_number [178] = Ret [43; 178] /\
  isdecimal 178 = false /\ is_ascii_digit 178 = false /\
  ~ (exists digits,
        ([43; 178] = digits \/ [43; 178] = chr "+" :: digits) /\
        forallb isdecimal digits = true).
Proof.
  split; [reflexivity|]. split; [reflexivity|]. split; [reflexivity|].
  intros (digits & [<- | E] & H).
  - discriminate H.
  - injection E as <-. discriminate H.
Qed.

(** C9 (amended): whenever the normaliser returns, the result is a string
    of characters that [str.isdigit] accepts, optionally behind exactly
    one leading ["+"]; each of them is a character of the raw input or of
    the prefix ["39"], so what [str.isdigit] refuses (spaces, dashes,
    parentheses, letters, ["+"]) is absent from the digit part; and when
    the raw input is ASCII, the digit part has decimal digits ['0'..'9']
    only. *)
Theorem clean_phone_number_shape (raw r : str) :
  _clean_phone_number raw = Ret r ->
  exists digits,
    (r = digits \/ r = chr "+" :: digits) /\
    forallb isdigit digits = true /\
    ~ In (chr "+") digits /\
    (forall c, In c digits -> In c raw \/ In c (u "39")) /\
    (forallb (fun c => c <? 128) raw = true ->
     forallb is_ascii_digit digits = true).
Proof.
  intros H.
  assert (Hne : raw <> []) by (intros ->; discriminate H).
  rewrite clean_phone_number_nonempty in H by exact Hne. cbv zeta in H.
  pose proof (filter_isdigit_digits raw) as Hd.
  assert (Hin : forall c, In c (filter isdigit raw) -> In c raw)
    by (intros c Hc; apply filter_In in Hc; tauto).
  assert (Hascii : forallb (fun c => c <? 128) raw = true ->
                   forallb is_ascii_digit (filter isdigit raw) = true).
  { intros Ha. apply forallb_forall. intros c Hc.
    apply filter_In in Hc as [Hc1 Hc2].
    apply isdigit_ascii; [exact Hc2|].
    rewrite forallb_forall in Ha. apply N.ltb_lt. apply Ha. exact Hc1. }
  assert (Hplus : forall d, forallb isdigit d = true -> ~ In (chr "+") d).
  { intros d Hall Hp. rewrite forallb_forall in Hall.
    specialize (Hall _ Hp). discriminate Hall. }
  destruct (negb _ && _) in H; injection H as <-.
  - exists (u "39" ++ filter isdigit raw).
    assert (H39 : forallb isdigit (u "39" ++ filter isdigit raw) = true)
      by (rewrite forallb_app, Hd; reflexivity).
    split; [left; reflexivity|]. split; [exact H39|].
    split; [apply Hplus; exact H39|]. split.
    + intros c Hc. apply in_app_or in Hc as [Hc | Hc]; [right | left]; auto.
    + intros Ha. rewrite forallb_app, (Hascii Ha). reflexivity.
  - exists (filter isdigit raw).
    split; [right; reflexivity|]. split; [exact Hd|].
    split; [apply Hplus; exact Hd|]. split.
    + intros c Hc. left. auto.
    + exact Hascii.
Qed.

Lemma clean_phone_number_shape_witness :
  exists digits,
    (u "+390612345" = digits \/ u "+390612345" = chr "+" :: digits) /\
    forallb isdigit digits = true /\
    ~ In (chr "+") digits /\
    (forall c, In c digits -> In c (u "(+39) 06-12345") \/ In c (u "39")) /\
    (forallb (fun c => c <? 128) (u "(+39) 06-12345") = true ->
     forallb is_ascii_digit digits = true).
Proof.
  apply (@clean_phone_number_shape (u "(+39) 06-12345") (u "+390612345")).
  reflexivity.
Defined.

(** C10: when the stripped digits are ten and already begin with ["39"],
    the country code is not prepended and the result is the digits behind
    a ["+"]; the result is ["39"] followed by the digits exactly when
    they are ten and do not begin with ["39"]. *)
Theorem clean_phone_number_39_kept (raw : str) :
  (List.length (filter isdigit raw) = 10%nat ->
   startswith (u "39") (filter isdigit raw) = true ->
   _clean_phone_number raw = Ret (u "+" ++ filter isdigit raw)) /\
  (_clean_phone_number raw = Ret (u "39" ++ filter isdigit raw) <->
   List.length (filter isdigit raw) = 10%nat /\
   startswith (u "39") (filter isdigit raw) = false).
Proof.
  split.
  - intros Hlen H39.
    assert (Hne : raw <> []) by (intros ->; discriminate Hlen).
    rewrite clean_phone_number_nonempty by exact Hne. cbv zeta.
    rewrite H39. reflexivity.
  - destruct raw as [|c raw].
    + split; [intros H; discriminate H | intros [H _]; discriminate H].
    + rewrite clean_phone_number_nonempty by discriminate. cbv zeta.
      destruct (startswith (u "39") (filter isdigit (c :: raw))) eqn:E39;
        destruct (Nat.eqb_spec (List.length (filter isdigit (c :: raw))) 10)
          as [El | El]; cbn [negb andb].
      * split; [intros H; discriminate H | intros [_ H]; discriminate H].
      * split; [intros H; discriminate H | intros [H _]; contradiction].
      * split; [intros _; split; [exact El | reflexivity] | reflexivity].
      * split; [intros H; discriminate H | intros [H _]; contradiction].
Qed.

Lemma clean_phone_number_39_kept_witness :
  _clean_phone_number (u "3912345678") = Ret (u "+3912345678").
Proof.
  apply (proj1 (clean_phone_number_39_kept (u "3912345678"))); reflexivity.
Defined.

(** C2, as stated, fails at its first step: for ["3331234567"] the
    normaliser prepends the country code and no ["+"]. *)
Lemma clean_phone_number_3331234567 :
  _clean_phone_number (u "3331234567") = Ret (u "393331234567") /\
  _clean_phone_number (u "3331234567") <> Ret (u "+393331234567").
Proof.
  split; [reflexivity | discriminate].
Qed.

(** ** The dispatcher *)

Section DispatcherFacts.
Variable P : platform.

(** A send touches nothing but the list of requests sent. *)
Lemma perform_sent (rq : http_request) (w : world) :
  sent (fst (perform P rq w)) = sent w ++ [rq] /\
  only_sent w (fst (perform P rq w)).
Proof.
  unfold perform, bind, send_request, lift, ret, only_sent.
  destruct (http P (sent w) rq) as [response | e]; simpl.
  - destruct (raise_for_status response); simpl; auto.
  - auto.
Qed.

Lemma send_external_sent (self : ExternalGateway.t) (message phone : str)
      (w : world) :
  only_sent w (fst (_send_external_message P self message phone w)).
Proof.
  unfold _send_external_message, bind, lift.
  destruct (external_request P self message phone) as [rq | e].
  - pose proof (perform_sent rq w) as [_ H].
    destruct (perform P rq w) as [w' r]. exact H.
  - simpl. unfold only_sent. auto.
Qed.

Lemma send_meta_sent (self : MetaGateway.t) (message phone : str)
      (w : world) :
  only_sent w (fst (_send_meta_message P self message phone w)).
Proof.
  unfold _send_meta_message.
  pose proof (perform_sent (meta_request self message phone) w) as [_ H].
  destruct (perform P _ w) as [w' r]. exact H.
Qed.

Lemma dispatch_only_sent (self : Gateway.t) (message phone : str)
      (w : world) :
  only_sent w (fst (fst (dispatch P self message phone w))).
Proof.
  unfold dispatch.
  destruct (_clean_phone_number phone) as [cleaned | e];
    [| simpl; unfold only_sent; auto].
  destruct (str_eqb (Gateway.type self) (u "external_rest")).
  - destruct (browse_external w (Gateway.id self)) as [g|].
    + pose proof (send_external_sent g message cleaned w) as H.
      destruct (_send_external_message P g message cleaned w). exact H.
    + simpl. unfold only_sent. auto.
  - destruct (str_eqb (Gateway.type self) (u "meta_cloud_api")).
    + destruct (browse_meta w (Gateway.id self)) as [g|].
      * pose proof (send_meta_sent g message cleaned w) as H.
        destruct (_send_meta_message P g message cleaned w). exact H.
      * simpl. unfold only_sent. auto.
    + simpl. unfold only_sent. auto.
Qed.

(** Logging and the chatter leave the requests sent as they are. *)
Lemma send_whatsapp_async_sent (self : Gateway.t) (message phone model : str)
      (res_id : Z) (template_id : option N) (w : world) :
  sent (fst (send_whatsapp_async P self message phone model res_id
               template_id w)) =
  sent (fst (fst (dispatch P self message phone w))).
Proof.
  unfold send_whatsapp_async.
  destruct (dispatch P self message phone w) as [[w1 phone'] r].
  unfold bind, _log_message, _write_to_chatter, modify, ret, raise.
  destruct r as [response | e];
    destruct (truthy model && negb (res_id =? 0)%Z);
    destruct (postable P model res_id); reflexivity.
Qed.
End DispatcherFacts.

(** C1: a call of the dispatcher creates exactly one log entry, whatever
    the send does.  [dispatch] is the outcome of the normalisation and of
    the gateway's send.  When the send returns, the call returns [True]
    and the entry has status [success] with the response's code and body;
    when the normalisation or the send raises, the call raises the same
    exception and the entry has status [error] with the code [500] (or
    the exception's [status_code]) and the exception's text.  Either way
    the entry carries the time of creation, the gateway, the message, the
    phone number and the link to the source record. *)
Theorem send_whatsapp_async_logs_once
        (P : platform) (self : Gateway.t) (message phone_number model : str)
        (res_id : Z) (template_id : option N) (w : world) :
  let '(_, phone, outcome) := dispatch P self message phone_number w in
  let '(w', result) :=
    send_whatsapp_async P self message phone_number model res_id template_id w
  in
  exists entry : Log.t,
    logs w' = logs w ++ [entry] /\
    Log.timestamp entry = now w /\
    Log.gateway_id entry = Some (Gateway.id self) /\
    Log.type entry = Gateway.type self /\
    Log.message entry = message /\
    Log.phone_number entry = phone /\
    Log.res_model entry = model /\
    Log.res_id entry = res_id /\
    match outcome with
    | Ret response =>
      result = Ret true /\
      Log.status entry = success /\
      Log.response_code entry = dec (sr_status_code response) /\
      Log.response_body entry = sr_response_body response
    | Raise e =>
      result = Raise e /\
      Log.status entry = error /\
      Log.response_code entry =
        dec (match exn_status_code e with Some c => c | None => 500%Z end) /\
      Log.response_body entry = exn_text e
    end.
Proof.
  pose proof (dispatch_only_sent P self message phone_number w) as Hframe.
  unfold send_whatsapp_async.
  destruct (dispatch P self message phone_number w) as [[w1 phone] outcome].
  destruct Hframe as (Hlogs & Hnow & _ & _). simpl in Hlogs, Hnow.
  unfold bind, _log_message, _write_to_chatter, modify, ret, raise.
  destruct outcome as [response | e];
    destruct (truthy model && negb (res_id =? 0)%Z);
    destruct (postable P model res_id); simpl;
    rewrite Hlogs, Hnow; eexists; (split; [reflexivity|]);
    repeat split; reflexivity.
Qed.

(** The request an external gateway builds in the scenario of C2. *)
Lemma external_request_scenario (P : platform) (self : ExternalGateway.t)
      (phone : str) :
  ExternalGateway.params_template self
    = uq "{'to':'{phone}','message':'{message}'}" ->
  ExternalGateway.headers self = [] ->
  ExternalGateway.method self = u "POST" ->
  ExternalGateway.recipient_param self = u "to" ->
  ExternalGateway.message_param self = u "message" ->
  ExternalGateway.api_key_param self = [] ->
  phone = u "393331234567" ->
  external_request P self (u "Hello") phone =
    Ret (post_json (ExternalGateway.url self)
           (JObj [(u "to", JStr (u "393331234567"));
                  (u "message", JStr (u "Hello"))])).
Proof.
  intros Ht Hh Hm Hr Hmsg Hk ->.
  unfold external_request, external_headers, external_params, template_params.
  rewrite Ht, Hh, Hm, Hr, Hmsg, Hk.
  destruct (truthy (ExternalGateway.api_key_value self)); reflexivity.
Qed.

(** C2 (amended): the normaliser turns ["3331234567"] into
    ["393331234567"], without a ["+"], and the dispatch of ["Hello"]
    through an external gateway whose [params_template] is
    [{"to":"{phone}","message":"{message}"}] (the other fields at their
    defaults) posts the parameters
    [{"to": "393331234567", "message": "Hello"}]. *)
Theorem external_dispatch_scenario
        (P : platform) (self : Gateway.t) (gateway : ExternalGateway.t)
        (model : str) (res_id : Z) (template_id : option N) (w : world) :
  Gateway.type self = u "external_rest" ->
  browse_external w (Gateway.id self) = Some gateway ->
  ExternalGateway.params_template gateway
    = uq "{'to':'{phone}','message':'{message}'}" ->
  ExternalGateway.headers gateway = [] ->
  ExternalGateway.method gateway = u "POST" ->
  ExternalGateway.recipient_param gateway = u "to" ->
  ExternalGateway.message_param gateway = u "message" ->
  ExternalGateway.api_key_param gateway = [] ->
  _clean_phone_number (u "3331234567") = Ret (u "393331234567") /\
  sent (fst (send_whatsapp_async P self (u "Hello") (u "3331234567")
               model res_id template_id w)) =
    sent w ++
    [post_json (ExternalGateway.url gateway)
       (JObj [(u "to", JStr (u "393331234567"));
              (u "message", JStr (u "Hello"))])].
Proof.
  intros Hty Hb Ht Hh Hm Hr Hmsg Hk. split; [reflexivity|].
  rewrite send_whatsapp_async_sent. unfold dispatch.
  change (_clean_phone_number (u "3331234567")) with (Ret (u "393331234567")).
  rewrite Hty, Hb.
  change (str_eqb (u "external_rest") (u "external_rest")) with true.
  cbv iota. unfold _send_external_message, bind, lift.
  rewrite (@external_request_scenario P gateway _ Ht Hh Hm Hr Hmsg Hk eq_refl).
  pose proof (perform_sent P
                (post_json (ExternalGateway.url gateway)
                   (JObj [(u "to", JStr (u "393331234567"));
                          (u "message", JStr (u "Hello"))])) w) as [Hs _].
  destruct (perform P _ w) as [w' r]. exact Hs.
Qed.

Lemma external_dispatch_scenario_witness :
  _clean_phone_number (u "3331234567") = Ret (u "393331234567") /\
  sent (fst (send_whatsapp_async sample_platform sample_gateway (u "Hello")
               (u "3331234567") [] 0 None sample_world)) =
    sent sample_world ++
    [post_json (u "https://gw.example/send")
       (JObj [(u "to", JStr (u "393331234567"));
              (u "message", JStr (u "Hello"))])].
Proof.
  apply (@external_dispatch_scenario sample_platform sample_gateway
           sample_external [] 0%Z None sample_world); reflexivity.
Defined.

(** Both paths of the dispatcher on the sample world: a send that is
    answered [200], one that is answered [503], and an empty number. *)
Example dispatch_success_run :
  let (w', result) :=
    send_whatsapp_async sample_platform sample_gateway (u "Hello")
      (u "3331234567") (u "res.partner") 7 None sample_world in
  result = Ret true /\
  map Log.status (logs w') = [success] /\
  map Log.response_code (logs w') = [u "200"] /\
  map Log.response_body (logs w') = [uq "{'sent': true}"] /\
  map note_body (chatter w')
    = [u "WhatsApp message sent to 393331234567: Hello"].
Proof. vm_compute. repeat split; reflexivity. Qed.

Example dispatch_failure_run :
  let (w', result) :=
    send_whatsapp_async failing_platform sample_gateway (u "Hello")
      (u "3331234567") [] 0 None sample_world in
  result =
    Raise (raise_of UserError
             (u "Failed to send WhatsApp message: 503 Server Error: Service Unavailable for url: https://gw.example/send")) /\
  map Log.status (logs w') = [error] /\
  map Log.response_code (logs w') = [u "500"] /\
  List.length (sent w') = 1%nat /\ chatter w' = [].
Proof. vm_compute. repeat split; reflexivity. Qed.

Example dispatch_empty_number_run :
  let (w', result) :=
    send_whatsapp_async sample_platform sample_gateway (u "Hello") [] [] 0
      None sample_world in
  result = Raise (raise_of UserError (u "Phone number is required")) /\
  map Log.status (logs w') = [error] /\
  map Log.phone_number (logs w') = [[]] /\ sent w' = [].
Proof. vm_compute. repeat split; reflexivity. Qed.

(** ** Retry from the log *)

(** C8, as stated, fails for a delivered entry: the retry of an entry
    whose status is [success] changes nothing and returns [None]; no
    notification, hence no warning, reaches the user. *)
Lemma action_retry_send_delivered_silent :
  action_retry_send sample_platform delivered_entry sample_world
    = (sample_world, Ret None) /\
  ~ (exists n,
        snd (action_retry_send sample_platform delivered_entry sample_world)
          = Ret (Some n) /\ notif_type n = u "warning").
Proof.
  split; [reflexivity|]. intros (n & H & _). discriminate H.
Qed.

(** C8 (amended): the retry of an entry whose status is [success] is a
    silent no-op: the world is unchanged and nothing is returned.  For an
    entry in error whose gateway is absent or inactive it is a no-op that
    returns the warning "Gateway is not active or does not exist".
    Otherwise it queues one job for the gateway with the entry's message,
    phone number and source record, creates no log entry, and returns
    "Message queued for retry". *)
Theorem action_retry_send_cases
        (P : platform) (self : Log.t) (w : world) :
  (Log.status self = success ->
   action_retry_send P self w = (w, Ret None)) /\
  (Log.status self = error ->
   (Log.gateway_id self = None \/
    exists i gateway,
      Log.gateway_id self = Some i /\ browse_gateway w i = Some gateway /\
      Gateway.active gateway = false) ->
   action_retry_send P self w = (w, Ret (Some retry_warning))) /\
  (forall i gateway,
     Log.status self = error ->
     Log.gateway_id self = Some i -> browse_gateway w i = Some gateway ->
     Gateway.active gateway = true ->
     let (w', result) := action_retry_send P self w in
     result = Ret (Some retry_queued) /\
     queue w' = queue w ++ [retry_job gateway self] /\
     logs w' = logs w /\ sent w' = sent w /\ chatter w' = chatter w).
Proof.
  unfold action_retry_send. split; [|split].
  - intros ->. reflexivity.
  - intros -> [-> | (i & gateway & -> & -> & ->)]; reflexivity.
  - intros i gateway -> -> -> ->. simpl. repeat split; reflexivity.
Qed.

Lemma action_retry_send_cases_witness :
  action_retry_send sample_platform delivered_entry sample_world
    = (sample_world, Ret None) /\
  action_retry_send sample_platform (failed_entry (Some 2)) sample_world
    = (sample_world, Ret (Some retry_warning)) /\
  action_retry_send sample_platform (failed_entry None) sample_world
    = (sample_world, Ret (Some retry_warning)) /\
  (let (w', result) :=
     action_retry_send sample_platform (failed_entry (Some 1)) sample_world in
   result = Ret (Some retry_queued) /\
   queue w' = queue sample_world
                ++ [retry_job sample_gateway (failed_entry (Some 1))] /\
   logs w' = logs sample_world /\ sent w' = sent sample_world /\
   chatter w' = chatter sample_world).
Proof.
  split; [|split; [|split]].
  - apply (proj1 (action_retry_send_cases sample_platform delivered_entry
                    sample_world)).
    reflexivity.
  - apply (proj1 (proj2 (action_retry_send_cases sample_platform
                           (failed_entry (Some 2)) sample_world))).
    + reflexivity.
    + right. exists 2, idle_gateway. repeat split; reflexivity.
  - apply (proj1 (proj2 (action_retry_send_cases sample_platform
                           (failed_entry None) sample_world))).
    + reflexivity.
    + left. reflexivity.
  - apply (proj2 (proj2 (action_retry_send_cases sample_platform
                           (failed_entry (Some 1)) sample_world))
             1 sample_gateway); reflexivity.
Defined.

(** ** Strings: prefixes and replacement *)

Lemma str_eqb_eq (a b : str) : str_eqb a b = true <-> a = b.
Proof.
  unfold str_eqb. destruct (str_eq_dec a b); split; congruence.
Qed.

Lemma str_eqb_refl (a : str) : str_eqb a a = true.
Proof. apply str_eqb_eq. reflexivity. Qed.

Lemma startswith_app (p r : str) : startswith p (p ++ r) = true.
Proof.
  induction p as [|a p IH]; [reflexivity|].
  simpl. rewrite N.eqb_refl. exact IH.
Qed.

Lemma startswith_inv (p s : str) :
  startswith p s = true -> exists r, s = p ++ r.
Proof.
  revert s. induction p as [|a p IH]; intros s H.
  - exists s. reflexivity.
  - destruct s as [|b s]; [discriminate H|]. simpl in H.
    apply andb_true_iff in H as [Hab H]. apply N.eqb_eq in Hab. subst b.
    destruct (IH _ H) as [r ->]. exists r. reflexivity.
Qed.

Lemma replace_from_skip (old new xs r : str) :
  replace_from old new (List.length xs) (xs ++ r) = replace_from old new 0 r.
Proof.
  induction xs as [|x xs IH]; [reflexivity|]. simpl. exact IH.
Qed.

(** An occurrence at the head is replaced and the scan goes on behind
    it. *)
Lemma replace_from_head (old new r : str) :
  old <> [] ->
  replace_from old new 0 (old ++ r) = new ++ replace_from old new 0 r.
Proof.
  intros Hne. destruct old as [|c o]; [contradiction|].
  change ((c :: o) ++ r) with (c :: (o ++ r)).
  cbn [replace_from]. 
  change (c :: o ++ r) with ((c :: o) ++ r). rewrite startswith_app.
  replace (List.length (c :: o) - 1)%nat with (List.length o)
    by (simpl; lia).
  rewrite replace_from_skip. reflexivity.
Qed.

(** Text without the first character of [old] is copied. *)
Lemma replace_from_copy (c : char) (o new s r : str) :
  forallb (fun x => negb (x =? c)) s = true ->
  replace_from (c :: o) new 0 (s ++ r) = s ++ replace_from (c :: o) new 0 r.
Proof.
  induction s as [|x s IH]; intros H; [reflexivity|].
  simpl in H. apply andb_true_iff in H as [Hx Hs].
  change ((x :: s) ++ r) with (x :: (s ++ r)). cbn [replace_from startswith].
  rewrite N.eqb_sym. apply negb_true_iff in Hx. rewrite Hx. cbn [andb].
  rewrite (IH Hs). reflexivity.
Qed.

Lemma brace_free_cons (c : char) (s : str) :
  brace_free (c :: s) = true -> (c =? chr "}") = false /\ brace_free s = true.
Proof.
  unfold brace_free. cbn [forallb]. intros H.
  apply andb_true_iff in H as [Hc Hs]. apply negb_true_iff in Hc. tauto.
Qed.

(** ** Rendering a body given by its pieces *)

Lemma holes_cons_lit (s : str) (segs : list segment) :
  holes (Lit s :: segs) = holes segs.
Proof. reflexivity. Qed.

Lemma holes_cons_hole (p : str) (segs : list segment) :
  holes (Hole p :: segs) = p :: holes segs.
Proof. reflexivity. Qed.

Lemma filled_where_nil (subst : str -> str) (segs : list segment) :
  filled_where [] subst segs = body_of segs.
Proof. reflexivity. Qed.

Lemma filled_where_all (subst : str -> str) (done : list str)
      (segs : list segment) :
  (forall p, In p (holes segs) -> In p done) ->
  filled_where done subst segs = filled subst segs.
Proof.
  induction segs as [|seg segs IH]; intros H; [reflexivity|].
  unfold filled_where, filled in *. cbn [flat_map].
  destruct seg as [s | p].
  - rewrite holes_cons_lit in H. rewrite (IH H). reflexivity.
  - rewrite holes_cons_hole in H.
    assert (E : existsb (str_eqb p) done = true).
    { apply existsb_exists. exists p. split.
      - apply H. left. reflexivity.
      - apply str_eqb_refl. }
    rewrite E, IH; [reflexivity|].
    intros p' Hp'. apply H. right. exact Hp'.
Qed.

Lemma render_unfold (env : environment) (content : str) (record : pyval) :
  _render_template_content env content record =
    fold_left
      (fun rendered q => replace (token q) (substitution env record q) rendered)
      (findall_placeholders content) content.
Proof.
  unfold _render_template_content. destruct content; reflexivity.
Qed.

Lemma substitution_ret (env : environment) (record : pyval) (p : str)
      (value : pyval) :
  _resolve_placeholder env p record = Ret value ->
  substitution env record p = value_text value.
Proof. unfold substitution. intros ->. reflexivity. Qed.

Lemma substitution_raise (env : environment) (record : pyval) (q : str)
      (e : exn) :
  _resolve_placeholder env q record = Raise e ->
  substitution env record q = error_marker e.
Proof. unfold substitution. intros ->. reflexivity. Qed.

(** ** What the scanner finds *)

Lemma brace_free_app (a b : str) :
  brace_free (a ++ b) = brace_free a && brace_free b.
Proof. apply forallb_app. Qed.

(** What the scanner returns, in both of its states. *)
Lemma scanner_sound (n : nat) :
  forall s, (List.length s <= n)%nat ->
    (forall p, In p (findall_placeholders s) ->
       p <> [] /\ brace_free p = true /\
       exists pre post, s = pre ++ token p ++ post) /\
    (forall acc p, In p (inside acc s) ->
       (p <> [] /\
        exists q post,
          s = q ++ u "}" ++ post /\ p = rev acc ++ q /\ brace_free q = true) \/
       (p <> [] /\ brace_free p = true /\
        exists pre post, s = pre ++ token p ++ post)).
Proof.
  induction n as [|n IH]; intros s Hlen.
  - destruct s; [|cbn in Hlen; lia]. split; [intros p [] | intros acc p []].
  - destruct s as [|c t]; [split; [intros p [] | intros acc p []]|].
    cbn [List.length] in Hlen.
    assert (Ht : (List.length t <= n)%nat) by lia.
    destruct (IH t Ht) as [IH1 IH2].
    assert (Hshift : forall p,
               (p <> [] /\ brace_free p = true /\
                exists pre post, t = pre ++ token p ++ post) ->
               p <> [] /\ brace_free p = true /\
               exists pre post, c :: t = pre ++ token p ++ post).
    { intros p (Hp & Hb & pre & post & ->). split; [exact Hp|].
      split; [exact Hb|]. exists (c :: pre), post. reflexivity. }
    split.
    + intros p Hin. cbn [findall_placeholders] in Hin.
      destruct (c =? chr "$") eqn:Ec; [|exact (Hshift p (IH1 p Hin))].
      destruct t as [|c' t']; [destruct Hin|].
      destruct (c' =? chr "{") eqn:Ec'; [|exact (Hshift p (IH1 p Hin))].
      apply N.eqb_eq in Ec, Ec'. subst c c'.
      cbn [List.length] in Ht.
      assert (Ht' : (List.length t' <= n)%nat) by lia.
      destruct (IH t' Ht') as [_ IH2'].
      destruct (IH2' [] p Hin)
        as [(Hp & q & post & -> & -> & Hq)
           | (Hp & Hb & pre & post & ->)].
      * cbn [rev app] in *. split; [exact Hp|]. split; [exact Hq|].
        exists [], post. unfold token. rewrite <- !app_assoc. reflexivity.
      * split; [exact Hp|]. split; [exact Hb|].
        exists (u "${" ++ pre), post. reflexivity.
    + intros acc p Hin. cbn [inside] in Hin.
      destruct (c =? chr "}") eqn:Ec.
      * apply N.eqb_eq in Ec. subst c.
        destruct acc as [|a acc].
        -- right. exact (Hshift p (IH1 p Hin)).
        -- destruct Hin as [<- | Hin]; [|right; exact (Hshift p (IH1 p Hin))].
           left. split.
           ++ intros E. apply (f_equal (@List.length _)) in E.
              rewrite length_rev in E. discriminate E.
           ++ exists [], t. rewrite app_nil_r. repeat split; reflexivity.
      * destruct (IH2 (c :: acc) p Hin)
          as [(Hp & q & post & -> & -> & Hq)
             | H]; [|right; exact (Hshift p H)].
        left. split; [exact Hp|]. exists (c :: q), post.
        split; [reflexivity|]. split.
        -- cbn [rev]. rewrite <- app_assoc. reflexivity.
        -- unfold brace_free in *. cbn [forallb]. rewrite Ec, Hq. reflexivity.
Qed.

(** ** The body cut into pieces by the scanner *)

Lemma segments_scanner (n : nat) :
  forall s, (List.length s <= n)%nat ->
    (body_of (segments s) = s /\
     holes (segments s) = findall_placeholders s /\
     forall subst, filled subst (segments s) = span_render subst s) /\
    (forall acc,
       body_of (segments_inside acc s) = u "${" ++ rev acc ++ s /\
       holes (segments_inside acc s) = inside acc s /\
       forall subst,
         filled subst (segments_inside acc s) = span_inside subst acc s).
Proof.
  induction n as [|n IH]; intros s Hlen.
  - destruct s; [|cbn in Hlen; lia]. split; [repeat split|].
    intros acc. cbn [segments_inside inside span_inside].
    unfold body_of, holes, filled. cbn [flat_map segment_text].
    rewrite !app_nil_r. repeat split.
  - destruct s as [|c t].
    { split; [repeat split|]. intros acc.
      cbn [segments_inside inside span_inside].
      unfold body_of, holes, filled. cbn [flat_map segment_text].
      rewrite !app_nil_r. repeat split. }
    cbn [List.length] in Hlen.
    assert (Ht : (List.length t <= n)%nat) by lia.
    destruct (IH t Ht) as [(IHb & IHh & IHf) IH2].
    assert (Hlit : body_of (Lit [c] :: segments t) = c :: t /\
                   holes (Lit [c] :: segments t) = findall_placeholders t /\
                   forall subst, filled subst (Lit [c] :: segments t)
                                 = c :: span_render subst t).
    { unfold body_of, holes, filled in *. cbn [flat_map segment_text app].
      rewrite IHb, IHh. repeat split. intros subst. rewrite IHf. reflexivity. }
    split.
    + cbn [segments findall_placeholders span_render].
      destruct (c =? chr "$") eqn:Ec; [|exact Hlit].
      destruct t as [|c' t']; [repeat split|].
      destruct (c' =? chr "{") eqn:Ec'; [|exact Hlit].
      apply N.eqb_eq in Ec, Ec'. subst c c'.
      cbn [List.length] in Ht.
      assert (Ht' : (List.length t' <= n)%nat) by lia.
      destruct (IH t' Ht') as [_ IH2'].
      destruct (IH2' []) as (Hb & Hh & Hf). repeat split; assumption.
    + intros acc. cbn [segments_inside inside span_inside].
      destruct (c =? chr "}") eqn:Ec.
      * apply N.eqb_eq in Ec. subst c.
        destruct acc as [|a acc].
        -- unfold body_of, holes, filled in *. cbn [flat_map segment_text].
           rewrite IHb, IHh. repeat split. intros subst. rewrite IHf.
           reflexivity.
        -- unfold body_of, holes, filled in *. cbn [flat_map segment_text].
           rewrite IHb, IHh. split; [|split; [reflexivity|]].
           ++ unfold token. rewrite <- !app_assoc. reflexivity.
           ++ intros subst. rewrite IHf. reflexivity.
      * destruct (IH2 (c :: acc)) as (Hb & Hh & Hf).
        rewrite Hb, Hh. split; [|split; [reflexivity | exact Hf]].
        cbn [rev]. rewrite <- !app_assoc. reflexivity.
Qed.

Lemma segments_body (s : str) : body_of (segments s) = s.
Proof. exact (proj1 (proj1 (segments_scanner _ s (le_n _)))). Qed.

Lemma segments_holes (s : str) : holes (segments s) = findall_placeholders s.
Proof. exact (proj1 (proj2 (proj1 (segments_scanner _ s (le_n _))))). Qed.

Lemma segments_filled (subst : str -> str) (s : str) :
  filled subst (segments s) = span_render subst s.
Proof. exact (proj2 (proj2 (proj1 (segments_scanner _ s (le_n _)))) subst). Qed.

(** ** Replacement in a text where the token occurs only in place *)

Lemma contains_tail (sub s : str) (c : char) :
  contains sub (c :: s) = false ->
  startswith sub (c :: s) = false /\ contains sub s = false.
Proof.
  cbn [contains]. intros H. apply orb_false_iff in H. exact H.
Qed.

Lemma startswith_contains (sub s : str) :
  startswith sub s = true -> contains sub s = true.
Proof. intros H. destruct s; cbn [contains]; rewrite H; reflexivity. Qed.

(** A chunk without an occurrence of [old], also none that would run
    over its end into the text behind it, is copied. *)
Lemma replace_from_chunk (old new chunk rest : str) :
  contains old chunk = false ->
  (forall x y, chunk = x ++ y -> y <> [] ->
               startswith old (y ++ rest) = true -> startswith old y = true) ->
  replace_from old new 0 (chunk ++ rest)
    = chunk ++ replace_from old new 0 rest.
Proof.
  induction chunk as [|c chunk IH]; intros Hno Hstr; [reflexivity|].
  destruct (contains_tail _ _ _ Hno) as [Hhead Hrest].
  change ((c :: chunk) ++ rest) with (c :: (chunk ++ rest)).
  cbn [replace_from].
  destruct (startswith old (c :: chunk ++ rest)) eqn:E.
  - rewrite (Hstr [] (c :: chunk) eq_refl) in Hhead;
      [discriminate Hhead | discriminate | exact E].
  - cbn [app]. f_equal. apply IH; [exact Hrest|].
    intros x y -> Hy. apply (Hstr (c :: x) y eq_refl Hy).
Qed.

(** The first closing brace of a text. *)
Lemma first_brace (y : str) :
  brace_free y = true \/
  exists y1 y2, y = y1 ++ chr "}" :: y2 /\ brace_free y1 = true.
Proof.
  induction y as [|c y IH]; [left; reflexivity|].
  destruct (c =? chr "}") eqn:Ec.
  - right. apply N.eqb_eq in Ec. subst c. exists [], y. split; reflexivity.
  - destruct IH as [IH | (y1 & y2 & -> & IH)].
    + left. unfold brace_free in *. cbn [forallb]. rewrite Ec, IH. reflexivity.
    + right. exists (c :: y1), y2. split; [reflexivity|].
      unfold brace_free in *. cbn [forallb]. rewrite Ec, IH. reflexivity.
Qed.

Lemma first_brace_unique (m1 m2 r1 r2 : str) :
  brace_free m1 = true -> brace_free m2 = true ->
  m1 ++ chr "}" :: r1 = m2 ++ chr "}" :: r2 -> m1 = m2 /\ r1 = r2.
Proof.
  revert m2. induction m1 as [|a m1 IH]; intros m2 H1 H2 E.
  - destruct m2 as [|b m2].
    + injection E as ->. split; reflexivity.
    + injection E as <- _. apply brace_free_cons in H2 as [Hb _].
      discriminate Hb.
  - apply brace_free_cons in H1 as [Ha H1].
    destruct m2 as [|b m2].
    + injection E as -> _. discriminate Ha.
    + apply brace_free_cons in H2 as [_ H2]. injection E as <- E.
      destruct (IH m2 H1 H2 E) as [-> ->]. split; reflexivity.
Qed.

Lemma token_closed (q : str) : token q = (u "${" ++ q) ++ u "}".
Proof. unfold token. rewrite <- app_assoc. reflexivity. Qed.

Lemma token_body_brace_free (q : str) :
  brace_free q = true -> brace_free (u "${" ++ q) = true.
Proof. intros H. rewrite brace_free_app, H. reflexivity. Qed.

(** An occurrence of a token cannot begin before another occurrence of
    it and end inside it. *)
Lemma token_no_straddle (q y r : str) :
  brace_free q = true -> y <> [] ->
  startswith (token q) (y ++ token q ++ r) = true ->
  startswith (token q) y = true.
Proof.
  intros Hq Hy H. apply startswith_inv in H as [s Hs].
  pose proof (token_body_brace_free q Hq) as Hm.
  unfold token in Hs. rewrite <- !app_assoc in Hs.
  destruct (first_brace y) as [Hfree | (y1 & y2 & -> & Hy1)].
  - exfalso.
    assert (E : (y ++ u "${" ++ q) ++ chr "}" :: r
                = (u "${" ++ q) ++ chr "}" :: s)
      by (rewrite <- !app_assoc; exact Hs).
    assert (Hym : brace_free (y ++ u "${" ++ q) = true)
      by (rewrite brace_free_app, Hfree, Hm; reflexivity).
    destruct (first_brace_unique _ _ _ _ Hym Hm E) as [E' _].
    apply (f_equal (@List.length _)) in E'. rewrite length_app in E'.
    destruct y; [contradiction | cbn [List.length] in E'; lia].
  - assert (E : y1 ++ chr "}" :: (y2 ++ u "${" ++ q ++ u "}" ++ r)
                = (u "${" ++ q) ++ chr "}" :: s)
      by (rewrite <- !app_assoc in Hs; rewrite <- !app_assoc; exact Hs).
    destruct (first_brace_unique _ _ _ _ Hy1 Hm E) as [-> _].
    unfold token.
    change ((u "${" ++ q) ++ chr "}" :: y2)
      with ((u "${" ++ q) ++ u "}" ++ y2).
    rewrite !app_assoc. rewrite <- (app_assoc (u "${")). apply startswith_app.
Qed.

Lemma replace_from_clean (old new chunk : str) :
  contains old chunk = false -> replace_from old new 0 chunk = chunk.
Proof.
  intros H. rewrite <- (app_nil_r chunk) at 1.
  rewrite (replace_from_chunk old new chunk [] H).
  - cbn [replace_from]. apply app_nil_r.
  - intros x y _ _. rewrite app_nil_r. tauto.
Qed.

Lemma replace_from_before_token (q new chunk r : str) :
  brace_free q = true ->
  contains (token q) chunk = false ->
  replace_from (token q) new 0 (chunk ++ token q ++ r)
    = chunk ++ new ++ replace_from (token q) new 0 r.
Proof.
  intros Hq H. rewrite (replace_from_chunk (token q) new chunk _ H).
  - rewrite replace_from_head; [reflexivity | discriminate].
  - intros x y _ Hy. apply token_no_straddle; assumption.
Qed.

Lemma filled_where_lit (done : list str) (subst : str -> str) (s : str)
      (segs : list segment) :
  filled_where done subst (Lit s :: segs) = s ++ filled_where done subst segs.
Proof. reflexivity. Qed.

Lemma filled_where_hole (done : list str) (subst : str -> str) (p : str)
      (segs : list segment) :
  filled_where done subst (Hole p :: segs)
    = (if existsb (str_eqb p) done then subst p else token p)
        ++ filled_where done subst segs.
Proof. reflexivity. Qed.

(** One pass of [str.replace] for the placeholder [q]: when its token
    occurs only where [q] still stands, the pass fills these places and
    leaves everything else as it is. *)
Lemma replace_in_place (subst : str -> str) (q : str) (done : list str)
      (segs : list segment) :
  brace_free q = true ->
  forall cur,
    forallb (fun chunk => negb (contains (token q) chunk))
            (chunks q done subst segs cur) = true ->
    replace_from (token q) (subst q) 0 (cur ++ filled_where done subst segs)
      = cur ++ filled_where (q :: done) subst segs.
Proof.
  intros Hq. induction segs as [|seg segs IH]; intros cur H.
  - cbn [chunks forallb] in H. rewrite andb_true_r in H.
    apply negb_true_iff in H. unfold filled_where. cbn [flat_map].
    rewrite app_nil_r. apply replace_from_clean. exact H.
  - destruct seg as [s | p].
    + cbn [chunks] in H. rewrite !filled_where_lit, !app_assoc.
      apply IH. exact H.
    + cbn [chunks] in H. rewrite !filled_where_hole.
      change (existsb (str_eqb p) (q :: done))
        with (str_eqb p q || existsb (str_eqb p) done).
      destruct (existsb (str_eqb p) done) eqn:Edone.
      * rewrite orb_true_r, !app_assoc. apply IH. exact H.
      * rewrite orb_false_r. destruct (str_eqb p q) eqn:Epq.
        -- apply str_eqb_eq in Epq. subst p. cbn [forallb] in H.
           apply andb_true_iff in H as [Hcur H]. apply negb_true_iff in Hcur.
           rewrite (replace_from_before_token q _ cur _ Hq Hcur).
           pose proof (IH [] H) as E. cbn [app] in E. rewrite E. reflexivity.
        -- rewrite !app_assoc. apply IH. exact H.
Qed.

Lemma replace_pass (subst : str -> str) (q : str) (done : list str)
      (segs : list segment) :
  brace_free q = true ->
  token_only_in_place q done subst segs = true ->
  replace (token q) (subst q) (filled_where done subst segs)
    = filled_where (q :: done) subst segs.
Proof.
  intros Hq H. exact (replace_in_place subst q done segs Hq [] H).
Qed.

Lemma replace_passes (subst : str -> str) (segs : list segment)
      (todo done : list str) :
  Forall (fun q => brace_free q = true) todo ->
  no_rematch_from subst segs done todo = true ->
  fold_left (fun rendered q => replace (token q) (subst q) rendered) todo
    (filled_where done subst segs)
    = filled_where (rev todo ++ done) subst segs.
Proof.
  intros Htodo. revert done.
  induction Htodo as [|q todo Hq _ IH]; intros done H; [reflexivity|].
  cbn [no_rematch_from] in H. apply andb_true_iff in H as [Hq' H].
  cbn [fold_left rev]. rewrite (replace_pass subst q done segs Hq Hq').
  rewrite (IH _ H), <- app_assoc. reflexivity.
Qed.

Lemma findall_brace_free (body : str) :
  Forall (fun q => brace_free q = true) (findall_placeholders body).
Proof.
  apply Forall_forall. intros q Hq.
  exact (proj1 (proj2 (proj1 (scanner_sound _ body (le_n _)) q Hq))).
Qed.

(** Without a second match the repeated replacement is the span
    replacement. *)
Lemma render_in_place (env : environment) (record : pyval) (body : str) :
  no_rematch (substitution env record) body = true ->
  _render_template_content env body record
    = filled (substitution env record) (segments body).
Proof.
  intros H. unfold no_rematch in H. rewrite render_unfold.
  rewrite <- (segments_body body) at 2.
  rewrite <- (filled_where_nil (substitution env record) (segments body)).
  rewrite (replace_passes _ _ _ [] (findall_brace_free body) H).
  apply filled_where_all. intros p Hp. rewrite app_nil_r.
  apply in_rev. rewrite rev_involutive, <- segments_holes. exact Hp.
Qed.

(** ** Rendering *)

(** C3, as stated, fails: the record's [comment] is the text
    ["${company.name}"]; the first replacement puts it into the body and
    the second replacement, for the placeholder [company.name], replaces
    it again.  Span replacement would leave it verbatim. *)
Lemma render_resubstitutes :
  findall_placeholders nested_body = [u "object.comment"; u "company.name"] /\
  substitution sample_env sample_record (u "object.comment")
    = u "${company.name}" /\
  _render_template_content sample_env nested_body sample_record
    = u "Acme / Acme" /\
  span_render (substitution sample_env sample_record) nested_body
    = u "${company.name} / Acme" /\
  _render_template_content sample_env nested_body sample_record
    <> span_render (substitution sample_env sample_record) nested_body.
Proof.
  split; [reflexivity|]. split; [reflexivity|]. split; [reflexivity|].
  split; [reflexivity | discriminate].
Qed.

(** C3 (amended): the renderer replaces, for each placeholder found in
    the original body and in order of occurrence, every occurrence of its
    token in the text rendered so far, the text of earlier substitutions
    included.  A substituted text is matched again only when, in the text
    rendered so far, it spells the token of the placeholder being
    processed.  For every body and every context in which that does not
    happen (each token occurs, when its placeholder is processed, only
    where the placeholder still stands) the result is the span
    replacement: the substitution of every placeholder stands verbatim
    where the placeholder stood, between the renderings of what is
    before and behind it, whatever ["$"] or ["${...}"] it contains. *)
Theorem render_span_replacement (env : environment) (record : pyval)
        (body : str) :
  no_rematch (substitution env record) body = true ->
  _render_template_content env body record
    = span_render (substitution env record) body /\
  forall before p behind,
    segments body = before ++ Hole p :: behind ->
    _render_template_content env body record
      = filled (substitution env record) before
          ++ substitution env record p
          ++ filled (substitution env record) behind.
Proof.
  intros H. rewrite (render_in_place env record body H).
  split; [apply segments_filled|].
  intros before p behind ->. unfold filled.
  rewrite flat_map_app. reflexivity.
Qed.

Lemma render_span_replacement_witness :
  _render_template_content sample_env reversed_body sample_record
    = span_render (substitution sample_env sample_record) reversed_body /\
  forall before p behind,
    segments reversed_body = before ++ Hole p :: behind ->
    _render_template_content sample_env reversed_body sample_record
      = filled (substitution sample_env sample_record) before
          ++ substitution sample_env sample_record p
          ++ filled (substitution sample_env sample_record) behind.
Proof.
  apply (render_span_replacement sample_env sample_record reversed_body).
  vm_compute. reflexivity.
Defined.

(** The value ["${company.name}"] stays verbatim when its placeholder
    comes second, and so do a value that names no placeholder of the
    body and a stray ["$"]. *)
Example render_reversed :
  segments reversed_body
    = [Hole (u "company.name"); Lit (u " "); Lit (u "/"); Lit (u " ");
       Hole (u "object.comment")] /\
  substitution sample_env sample_record (u "object.comment")
    = u "${company.name}" /\
  _render_template_content sample_env reversed_body sample_record
    = u "Acme / ${company.name}".
Proof. repeat split. Qed.

Example render_stray_dollar :
  no_rematch (substitution sample_env sample_record)
    (u "$5 for ${object.name} (${object.comment})") = true /\
  _render_template_content sample_env
    (u "$5 for ${object.name} (${object.comment})") sample_record
    = u "$5 for Ana (${company.name})".
Proof. split; reflexivity. Qed.

Example render_greeting :
  body_of greeting_segments
    = u "Hi ${object.name}, welcome to ${company.name}" /\
  _render_template_content sample_env (body_of greeting_segments) sample_record
    = u "Hi Ana, welcome to Acme".
Proof. split; reflexivity. Qed.

(** A body with exactly the placeholders [p] and [q] is three literal
    texts around their tokens. *)
Lemma holes_first (segs : list segment) (p : str) (ps : list str) :
  holes segs = p :: ps ->
  exists before rest,
    segs = before ++ Hole p :: rest /\ holes before = [] /\ holes rest = ps.
Proof.
  induction segs as [|seg segs IH]; intros H; [discriminate H|].
  destruct seg as [s | p'].
  - rewrite holes_cons_lit in H.
    destruct (IH H) as (before & rest & -> & Hb & Hr).
    exists (Lit s :: before), rest. repeat split; assumption.
  - rewrite holes_cons_hole in H. injection H as -> H.
    exists [], segs. repeat split. exact H.
Qed.

Lemma filled_literal (subst : str -> str) (segs : list segment) :
  holes segs = [] -> filled subst segs = body_of segs.
Proof.
  induction segs as [|seg segs IH]; intros H; [reflexivity|].
  destruct seg as [s | p]; [|discriminate H].
  rewrite holes_cons_lit in H. unfold filled, body_of in *.
  cbn [flat_map segment_text]. rewrite (IH H). reflexivity.
Qed.

Lemma segments_two (subst : str -> str) (body p q : str) :
  findall_placeholders body = [p; q] ->
  exists a b c,
    body = a ++ token p ++ b ++ token q ++ c /\
    filled subst (segments body) = a ++ subst p ++ b ++ subst q ++ c.
Proof.
  intros H. rewrite <- segments_holes in H.
  destruct (holes_first _ _ _ H) as (sa & rest & E & Ha & Hrest).
  destruct (holes_first _ _ _ Hrest) as (sb & sc & -> & Hb & Hc).
  exists (body_of sa), (body_of sb), (body_of sc).
  rewrite <- (segments_body body) at 1. rewrite E.
  unfold filled, body_of. rewrite !flat_map_app. cbn [flat_map segment_text].
  rewrite !flat_map_app. cbn [flat_map segment_text].
  fold (filled subst sa) (filled subst sb) (filled subst sc).
  fold (body_of sa) (body_of sb) (body_of sc).
  rewrite (filled_literal subst sa Ha), (filled_literal subst sb Hb),
    (filled_literal subst sc Hc).
  split; reflexivity.
Qed.

(** C7, as stated, fails: the record's [comment] is the text
    ["${object.bogus}"], the token of the placeholder that does not
    resolve.  The value is put into the body by the first replacement and
    turned into an error marker by the second: the output has two
    markers and the value is gone. *)
Lemma render_failure_spreads :
  findall_placeholders echo_body = [u "object.comment"; u "object.bogus"] /\
  _resolve_placeholder sample_env (u "object.comment") echo_record
    = Ret (py_str (u "${object.bogus}")) /\
  _resolve_placeholder sample_env (u "object.bogus") echo_record
    = Raise (raise_of ValueError (u "Field bogus not found")) /\
  _render_template_content sample_env echo_body echo_record
    = u "Note: [Error: Field bogus not found] / ref [Error: Field bogus not found]." /\
  _render_template_content sample_env echo_body echo_record
    <> u "Note: ${object.bogus} / ref [Error: Field bogus not found].".
Proof.
  split; [reflexivity|]. split; [reflexivity|]. split; [reflexivity|].
  split; [reflexivity | discriminate].
Qed.

(** C7 (amended): a placeholder that fails to resolve does not stop the
    rendering.  For every body whose placeholders are one that resolves
    and one that does not, in either order, the body is three literal
    texts around the two tokens and the rendering is these texts around
    the value of the first and the marker [[Error: <message>]] of the
    second, each where its placeholder stood, provided no replaced text
    is matched again (each token occurs, when its placeholder is
    processed, only where the placeholder stands; a value that spells
    the token of the failing placeholder is itself turned into the
    marker). *)
Theorem render_isolates_failure
        (env : environment) (record : pyval) (body p q : str)
        (value : pyval) (e : exn) :
  _resolve_placeholder env p record = Ret value ->
  _resolve_placeholder env q record = Raise e ->
  no_rematch (substitution env record) body = true ->
  (findall_placeholders body = [p; q] ->
   exists a b c,
     body = a ++ token p ++ b ++ token q ++ c /\
     _render_template_content env body record
       = a ++ value_text value ++ b
           ++ (u "[Error: " ++ exn_text e ++ u "]") ++ c) /\
  (findall_placeholders body = [q; p] ->
   exists a b c,
     body = a ++ token q ++ b ++ token p ++ c /\
     _render_template_content env body record
       = a ++ (u "[Error: " ++ exn_text e ++ u "]") ++ b
           ++ value_text value ++ c).
Proof.
  intros Hres Hfail Hno.
  rewrite (render_in_place env record body Hno).
  split; intros Hfound;
    destruct (segments_two (substitution env record) body _ _ Hfound)
      as (a & b & c & Hbody & Hfilled);
    exists a, b, c; (split; [exact Hbody|]); rewrite Hfilled;
    rewrite (substitution_ret env record p value Hres),
      (substitution_raise env record q e Hfail); reflexivity.
Qed.

Lemma render_isolates_failure_witness :
  (exists a b c,
     marked_body
       = a ++ token (u "object.name") ++ b ++ token (u "object.bogus") ++ c /\
     _render_template_content sample_env marked_body sample_record
       = a ++ value_text (py_str (u "Ana")) ++ b
           ++ (u "[Error: " ++ u "Field bogus not found" ++ u "]") ++ c) /\
  (exists a b c,
     marked_body_reversed
       = a ++ token (u "object.bogus") ++ b ++ token (u "object.name") ++ c /\
     _render_template_content sample_env marked_body_reversed sample_record
       = a ++ (u "[Error: " ++ u "Field bogus not found" ++ u "]") ++ b
           ++ value_text (py_str (u "Ana")) ++ c).
Proof.
  split.
  - apply (render_isolates_failure sample_env sample_record marked_body
             (u "object.name") (u "object.bogus") (py_str (u "Ana"))
             (raise_of ValueError (u "Field bogus not found")));
      reflexivity.
  - apply (render_isolates_failure sample_env sample_record
             marked_body_reversed
             (u "object.name") (u "object.bogus") (py_str (u "Ana"))
             (raise_of ValueError (u "Field bogus not found")));
      reflexivity.
Defined.

Example render_marked :
  _render_template_content sample_env marked_body sample_record
    = u "Hi Ana, ref [Error: Field bogus not found]." /\
  _render_template_content sample_env marked_body_reversed sample_record
    = u "Hi [Error: Field bogus not found], ref Ana.".
Proof. split; reflexivity. Qed.

(** The two bodies that the renderer does not render by span replacement
    are among those the condition excludes. *)
Example no_rematch_excludes :
  no_rematch (substitution sample_env sample_record) nested_body = false /\
  no_rematch (substitution sample_env echo_record) echo_body = false.
Proof. split; reflexivity. Qed.

(** ** Validation when a template is saved *)

Lemma dot_free_cons (c : char) (s : str) :
  dot_free (c :: s) = true -> (c =? chr ".") = false /\ dot_free s = true.
Proof.
  unfold dot_free. cbn [forallb]. intros H.
  apply andb_true_iff in H as [Hc Hs]. apply negb_true_iff in Hc. tauto.
Qed.

Lemma split_dot_root (r rest : str) :
  dot_free r = true -> split_dot (r ++ chr "." :: rest) = r :: split_dot rest.
Proof.
  induction r as [|c r IH]; intros H.
  - cbn [app split_dot]. rewrite N.eqb_refl. reflexivity.
  - apply dot_free_cons in H as [Hc Hr].
    change ((c :: r) ++ chr "." :: rest) with (c :: (r ++ chr "." :: rest)).
    cbn [split_dot]. rewrite Hc, (IH Hr). reflexivity.
Qed.

(** A text has no dot, or a first dot. *)
Lemma first_dot (p : str) :
  dot_free p = true \/
  exists r rest, dot_free r = true /\ p = r ++ chr "." :: rest.
Proof.
  induction p as [|c p IH]; [left; reflexivity|].
  destruct (c =? chr ".") eqn:Ec.
  - right. exists [], p. apply N.eqb_eq in Ec. subst c.
    split; reflexivity.
  - destruct IH as [Hp | (r & rest & Hr & ->)].
    + left. unfold dot_free in *. cbn [forallb]. rewrite Ec, Hp. reflexivity.
    + right. exists (c :: r), rest. split; [|reflexivity].
      unfold dot_free in *. cbn [forallb]. rewrite Ec, Hr. reflexivity.
Qed.

Lemma dot_free_not_in (p : str) : dot_free p = true -> ~ In (chr ".") p.
Proof.
  intros H Hin. unfold dot_free in H. rewrite forallb_forall in H.
  specialize (H _ Hin). discriminate H.
Qed.

(** A body starts with [root.] exactly when its root segment is [root]
    and a dot follows it. *)
Lemma startswith_root (r p : str) :
  dot_free r = true ->
  startswith (r ++ u ".") p = true <-> root_of p = r /\ In (chr ".") p.
Proof.
  intros Hr. split.
  - intros H. apply startswith_inv in H as [rest ->].
    rewrite <- app_assoc. change (u "." ++ rest) with (chr "." :: rest).
    unfold root_of. rewrite (split_dot_root r rest Hr).
    split; [reflexivity|]. apply in_or_app. right. left. reflexivity.
  - intros [Hroot Hin].
    destruct (first_dot p) as [Hp | (r0 & rest & Hr0 & ->)].
    + exfalso. exact (dot_free_not_in p Hp Hin).
    + unfold root_of in Hroot. rewrite (split_dot_root r0 rest Hr0) in Hroot.
      cbn [hd] in Hroot. subst r0.
      change (chr "." :: rest) with (u "." ++ rest). rewrite app_assoc.
      apply startswith_app.
Qed.

Lemma startswith_closed (x p : str) :
  brace_free x = true -> startswith x (p ++ u "}") = startswith x p.
Proof.
  revert p. induction x as [|a x IH]; intros p H; [reflexivity|].
  apply brace_free_cons in H as [Ha Hx].
  destruct p as [|b p].
  - change (((a =? chr "}") && startswith x []) = false).
    rewrite Ha. reflexivity.
  - change (((a =? b) && startswith x (p ++ u "}"))
            = ((a =? b) && startswith x p)).
    rewrite (IH p Hx). reflexivity.
Qed.

(** The check of one placeholder, in terms of its root segment. *)
Lemma valid_token_root (p : str) :
  valid_token (token p) = true <->
  known_root (root_of p) = true /\ In (chr ".") p.
Proof.
  assert (Hv : valid_token (token p)
               = startswith (u "object" ++ u ".") p
                 || startswith (u "user" ++ u ".") p
                 || startswith (u "company" ++ u ".") p).
  { unfold valid_token, token.
    change (startswith (u "${object.") (u "${" ++ p ++ u "}"))
      with (startswith (u "object.") (p ++ u "}")).
    change (startswith (u "${user.") (u "${" ++ p ++ u "}"))
      with (startswith (u "user.") (p ++ u "}")).
    change (startswith (u "${company.") (u "${" ++ p ++ u "}"))
      with (startswith (u "company.") (p ++ u "}")).
    rewrite !startswith_closed by reflexivity. reflexivity. }
  rewrite Hv. unfold known_root. rewrite !orb_true_iff.
  rewrite !startswith_root by reflexivity. rewrite !str_eqb_eq. tauto.
Qed.

Lemma check_placeholders_ok (tokens : list str) :
  check_placeholders tokens = Ret tt <-> forallb valid_token tokens = true.
Proof.
  induction tokens as [|t tokens IH]; [split; reflexivity|].
  cbn [check_placeholders forallb].
  destruct (valid_token t); cbn [negb andb]; [exact IH|].
  split; intros H; discriminate H.
Qed.

Lemma check_placeholders_raises (tokens : list str) :
  forallb valid_token tokens = false ->
  exists e, check_placeholders tokens = Raise e /\
            exn_class_of e = ValidationError.
Proof.
  induction tokens as [|t tokens IH]; intros H; [discriminate H|].
  cbn [check_placeholders forallb] in *.
  destruct (valid_token t); cbn [negb andb] in *.
  - exact (IH H).
  - eexists. split; reflexivity.
Qed.

Lemma check_template_syntax_unfold (body : str) :
  _check_template_syntax body
    = check_placeholders (map token (findall_placeholders body)).
Proof. unfold _check_template_syntax. destruct body; reflexivity. Qed.

(** C6, as stated, fails: the only placeholder of the body ["${object}"]
    has the root segment [object], and saving the template is refused;
    the renderer, for its part, resolves it to the record. *)
Lemma check_template_syntax_bare_root :
  findall_placeholders (u "${object}") = [u "object"] /\
  known_root (root_of (u "object")) = true /\
  (exists e, _check_template_syntax (u "${object}") = Raise e /\
             exn_class_of e = ValidationError) /\
  _check_template_syntax (u "${object}") <> Ret tt /\
  _resolve_placeholder sample_env (u "object") sample_record
    = Ret sample_record.
Proof.
  split; [reflexivity|]. split; [reflexivity|]. split.
  - eexists. split; reflexivity.
  - split; [discriminate | reflexivity].
Qed.

(** C6 (amended): saving succeeds exactly when every placeholder of the
    body has one of the roots [object], [user], [company] followed by a
    dot, that is, starts with [object.], [user.] or [company.]; it fails
    with a [ValidationError] otherwise, in particular for every body with
    a placeholder of any other root. *)
Theorem check_template_syntax_roots (body : str) :
  (_check_template_syntax body = Ret tt <->
   Forall (fun p => known_root (root_of p) = true /\ In (chr ".") p)
     (findall_placeholders body)) /\
  (_check_template_syntax body <> Ret tt ->
   exists e, _check_template_syntax body = Raise e /\
             exn_class_of e = ValidationError) /\
  (Exists (fun p => known_root (root_of p) = false)
     (findall_placeholders body) ->
   exists e, _check_template_syntax body = Raise e /\
             exn_class_of e = ValidationError).
Proof.
  rewrite check_template_syntax_unfold.
  assert (Hiff : forallb valid_token (map token (findall_placeholders body))
                 = true <->
                 Forall (fun p => known_root (root_of p) = true
                                  /\ In (chr ".") p)
                   (findall_placeholders body)).
  { rewrite forallb_forall, Forall_forall. split.
    - intros H p Hp. apply valid_token_root. apply H.
      apply in_map. exact Hp.
    - intros H t Ht. apply in_map_iff in Ht as (p & <- & Hp).
      apply valid_token_root. exact (H p Hp). }
  assert (Hfail : forallb valid_token (map token (findall_placeholders body))
                  <> true ->
                  exists e,
                    check_placeholders (map token (findall_placeholders body))
                      = Raise e /\ exn_class_of e = ValidationError).
  { intros H. apply check_placeholders_raises.
    destruct (forallb valid_token _); [contradiction | reflexivity]. }
  split; [|split].
  - rewrite check_placeholders_ok. exact Hiff.
  - intros H. apply Hfail. rewrite <- check_placeholders_ok. exact H.
  - intros Hex. apply Hfail. intros Hall. apply Hiff in Hall.
    rewrite Forall_forall in Hall. apply Exists_exists in Hex as (p & Hp & Hk).
    destruct (Hall p Hp) as [Hk' _]. congruence.
Qed.

Lemma check_template_syntax_roots_witness :
  _check_template_syntax (u "Hi ${object.name} from ${company.name}") = Ret tt /\
  exists e, _check_template_syntax (u "Hi ${partner.name}") = Raise e /\
            exn_class_of e = ValidationError.
Proof.
  split.
  - apply (proj1 (check_template_syntax_roots
                    (u "Hi ${object.name} from ${company.name}"))).
    replace (findall_placeholders (u "Hi ${object.name} from ${company.name}"))
      with [u "object.name"; u "company.name"] by (vm_compute; reflexivity).
    constructor; [|constructor; [|constructor]].
    + split; [vm_compute; reflexivity | do 6 right; left; reflexivity].
    + split; [vm_compute; reflexivity | do 7 right; left; reflexivity].
  - apply (proj2 (proj2 (check_template_syntax_roots (u "Hi ${partner.name}")))).
    replace (findall_placeholders (u "Hi ${partner.name}"))
      with [u "partner.name"] by (vm_compute; reflexivity).
    constructor. vm_compute. reflexivity.
Defined.

(* ================================================================== *)
(** * Further properties *)

(** ** The normaliser, again *)

Lemma filter_all {A} (f : A -> bool) (l : list A) :
  forallb f l = true -> filter f l = l.
Proof.
  induction l as [|x l IH]; [reflexivity|]. cbn [forallb filter].
  intros H. apply andb_true_iff in H as [Hx Hl]. rewrite Hx, (IH Hl).
  reflexivity.
Qed.

Lemma filter_isdigit_plus (d : str) :
  filter isdigit (u "+" ++ d) = filter isdigit d.
Proof. reflexivity. Qed.

Lemma lstrip_plus_digits (d : str) :
  forallb isdigit d = true -> lstrip_plus d = d.
Proof.
  destruct d as [|c d]; [reflexivity|]. cbn [forallb lstrip_plus].
  intros H. apply andb_true_iff in H as [Hc _].
  destruct (N.eqb_spec c (chr "+")) as [-> | _]; [discriminate Hc | reflexivity].
Qed.

(** The outcome of the normaliser in terms of the stripped digits. *)
Lemma clean_phone_number_result (raw r : str) :
  _clean_phone_number raw = Ret r ->
  raw <> [] /\
  ((negb (startswith (u "39") (filter isdigit raw))
    && (List.length (filter isdigit raw) =? 10)%nat = true
    /\ r = u "39" ++ filter isdigit raw) \/
   (negb (startswith (u "39") (filter isdigit raw))
    && (List.length (filter isdigit raw) =? 10)%nat = false
    /\ r = u "+" ++ filter isdigit raw)).
Proof.
  intros H.
  assert (Hne : raw <> []) by (intros ->; discriminate H).
  split; [exact Hne|].
  rewrite clean_phone_number_nonempty in H by exact Hne. cbv zeta in H.
  destruct (negb _ && _); injection H as <-; [left | right];
    split; reflexivity.
Qed.

(** X1: normalising a normalised number.  A result that starts with
    ["+"] is a fixed point.  A result without it (the ten digits behind
    ["39"]) is not: normalised again it gains a ["+"], and is a fixed
    point from then on. *)
Theorem clean_phone_number_again (raw r : str) :
  _clean_phone_number raw = Ret r ->
  (startswith (u "+") r = true -> _clean_phone_number r = Ret r) /\
  (startswith (u "+") r = false ->
   _clean_phone_number r = Ret (u "+" ++ r) /\
   _clean_phone_number (u "+" ++ r) = Ret (u "+" ++ r)).
Proof.
  intros H. destruct (clean_phone_number_result raw r H) as [_ Hr].
  pose proof (filter_isdigit_digits raw) as Hd.
  destruct Hr as [[Hc ->] | [Hc ->]].
  - assert (H39 : forallb isdigit (u "39" ++ filter isdigit raw) = true)
      by (rewrite forallb_app, Hd; reflexivity).
    split; [intros Hp; discriminate Hp|]. intros _.
    rewrite !clean_phone_number_nonempty by discriminate. cbv zeta.
    rewrite filter_isdigit_plus, (filter_all _ _ H39).
    change (startswith (u "39") (u "39" ++ filter isdigit raw)) with true.
    split; reflexivity.
  - split; [|intros Hp; discriminate Hp]. intros _.
    rewrite clean_phone_number_nonempty by discriminate. cbv zeta.
    rewrite filter_isdigit_plus, (filter_all _ _ Hd), Hc. reflexivity.
Qed.

Lemma clean_phone_number_again_witness :
  _clean_phone_number (u "393331234567") = Ret (u "+393331234567") /\
  _clean_phone_number (u "+393331234567") = Ret (u "+393331234567").
Proof.
  apply (proj2 (clean_phone_number_again (u "333 123 4567")
                  (u "393331234567") eq_refl)).
  reflexivity.
Defined.

(** X2: only the digits of the raw string matter: two non-empty strings
    with the same digits in the same order normalise alike, whatever
    separators, letters or signs surround them. *)
Theorem clean_phone_number_only_digits (raw1 raw2 : str) :
  raw1 <> [] -> raw2 <> [] ->
  filter isdigit raw1 = filter isdigit raw2 ->
  _clean_phone_number raw1 = _clean_phone_number raw2.
Proof.
  intros H1 H2 E. rewrite !clean_phone_number_nonempty by assumption.
  rewrite E. reflexivity.
Qed.

Lemma clean_phone_number_only_digits_witness :
  _clean_phone_number (u "+1 (555) 123-4567")
    = _clean_phone_number (u "tel: 1.555.123.4567").
Proof.
  apply clean_phone_number_only_digits; [discriminate | discriminate |].
  reflexivity.
Defined.

(** ** The Meta gateway *)

(** X3: the recipient of a Meta request.  For a number that came out of
    the normaliser, the [to] field is the number without its ["+"]: it is
    the stripped digits, or ["39"] and the stripped digits, and every
    character of it is a digit. *)
Theorem meta_request_recipient (self : MetaGateway.t) (message raw r : str) :
  _clean_phone_number raw = Ret r ->
  exists digits,
    rq_json (meta_request self message r)
      = Some (JObj [(u "messaging_product", JStr (u "whatsapp"));
                    (u "to", JStr digits);
                    (u "type", JStr (u "text"));
                    (u "text", JObj [(u "body", JStr message)])]) /\
    forallb isdigit digits = true /\
    (r = digits \/ r = u "+" ++ digits) /\
    (digits = filter isdigit raw \/ digits = u "39" ++ filter isdigit raw).
Proof.
  intros H. destruct (clean_phone_number_result raw r H) as [_ Hr].
  pose proof (filter_isdigit_digits raw) as Hd.
  destruct Hr as [[_ ->] | [_ ->]].
  - assert (H39 : forallb isdigit (u "39" ++ filter isdigit raw) = true)
      by (rewrite forallb_app, Hd; reflexivity).
    exists (u "39" ++ filter isdigit raw). unfold meta_request. cbn [rq_json].
    rewrite (lstrip_plus_digits _ H39). auto.
  - exists (filter isdigit raw). unfold meta_request. cbn [rq_json].
    change (lstrip_plus (u "+" ++ filter isdigit raw))
      with (lstrip_plus (filter isdigit raw)).
    rewrite (lstrip_plus_digits _ Hd). auto.
Qed.

Lemma meta_request_recipient_witness :
  exists digits,
    rq_json (meta_request sample_meta (u "Hello") (u "+15551234567"))
      = Some (JObj [(u "messaging_product", JStr (u "whatsapp"));
                    (u "to", JStr digits);
                    (u "type", JStr (u "text"));
                    (u "text", JObj [(u "body", JStr (u "Hello"))])]) /\
    forallb isdigit digits = true /\
    (u "+15551234567" = digits \/ u "+15551234567" = u "+" ++ digits) /\
    (digits = filter isdigit (u "+1 555 123 4567") \/
     digits = u "39" ++ filter isdigit (u "+1 555 123 4567")).
Proof.
  apply (meta_request_recipient sample_meta (u "Hello") (u "+1 555 123 4567")
           (u "+15551234567")).
  reflexivity.
Defined.

(** The statuses [raise_for_status] refuses. *)
Lemma error_status_split (c : Z) :
  ((400 <=? c) && (c <? 600))%Z
  = (((400 <=? c) && (c <? 500)) || ((500 <=? c) && (c <? 600)))%Z.
Proof.
  destruct (Z.leb_spec 400 c), (Z.ltb_spec c 500), (Z.leb_spec 500 c),
    (Z.ltb_spec c 600); cbn; try reflexivity; lia.
Qed.

(** X4: the outcome of a Meta send is decided by the answer to its one
    request.  An answer with a status outside 400..599 is a success that
    carries the status and the body verbatim (a 302 as well as a 200); a
    status within 400..599 and an exception of [requests] become a
    [UserError] whose text starts with "Failed to send WhatsApp message
    via Meta: "; any other exception passes unchanged. *)
Theorem send_meta_message_outcome
        (P : platform) (self : MetaGateway.t) (message phone : str)
        (w : world) :
  let rq := meta_request self message phone in
  let (w', r) := _send_meta_message P self message phone w in
  sent w' = sent w ++ [rq] /\ logs w' = logs w /\
  match http P (sent w) rq with
  | Ret response =>
    if ((400 <=? status_code response) && (status_code response <? 600))%Z
    then exists kind,
        r = Raise (raise_of UserError
                     (u "Failed to send WhatsApp message via Meta: "
                        ++ dec (status_code response) ++ kind
                        ++ reason response ++ u " for url: "
                        ++ resp_url response))
    else r = Ret {| sr_status_code := status_code response;
                    sr_response_body := text response;
                    sr_success := true |}
  | Raise e =>
    match exn_class_of e with
    | RequestException =>
      r = Raise (raise_of UserError
                   (u "Failed to send WhatsApp message via Meta: "
                      ++ exn_text e))
    | _ => r = Raise e
    end
  end.
Proof.
  cbv zeta. unfold _send_meta_message, perform, bind, send_request, lift, ret.
  destruct (http P (sent w) (meta_request self message phone))
    as [response | e]; cbn [fst snd].
  - unfold raise_for_status. rewrite error_status_split.
    destruct ((400 <=? status_code response) && (status_code response <? 500))%Z.
    + split; [reflexivity|]. split; [reflexivity|].
      exists (u " Client Error: "). reflexivity.
    + destruct ((500 <=? status_code response)
                && (status_code response <? 600))%Z.
      * split; [reflexivity|]. split; [reflexivity|].
        exists (u " Server Error: "). reflexivity.
      * repeat split; reflexivity.
  - split; [reflexivity|]. split; [reflexivity|].
    unfold wrap_request_exception. destruct (exn_class_of e); reflexivity.
Qed.

(** ** The external gateway *)

Lemma dict_get_set_same (k : str) (v : json) (d : dict) :
  dict_get k (dict_set k v d) = Some v.
Proof.
  induction d as [|[k' v'] d IH]; cbn [dict_set dict_get].
  - rewrite str_eqb_refl. reflexivity.
  - destruct (str_eqb k k') eqn:E; cbn [dict_get]; rewrite E;
      [reflexivity | exact IH].
Qed.

Lemma dict_get_set_other (k k' : str) (v : json) (d : dict) :
  k <> k' -> dict_get k (dict_set k' v d) = dict_get k d.
Proof.
  intros Hne.
  assert (Hkk : str_eqb k k' = false).
  { destruct (str_eqb k k') eqn:E; [|reflexivity].
    apply str_eqb_eq in E. contradiction. }
  induction d as [|[k0 v0] d IH]; cbn [dict_set dict_get].
  - rewrite Hkk. reflexivity.
  - destruct (str_eqb k' k0) eqn:E; cbn [dict_get].
    + apply str_eqb_eq in E. subst k0. rewrite Hkk. reflexivity.
    + rewrite IH. reflexivity.
Qed.

Lemma setitem_ret (j j' : json) (k : str) (v : json) :
  setitem j k v = Ret j' ->
  exists d, j = JObj d /\ j' = JObj (dict_set k v d).
Proof.
  destruct j; cbn [setitem]; intros H; try discriminate H.
  injection H as <-. eexists. split; reflexivity.
Qed.

Lemma setitem_raise (j : json) (k : str) (v : json) :
  is_object j = false ->
  exists e, setitem j k v = Raise e /\ exn_class_of e = TypeError.
Proof.
  destruct j; cbn [is_object setitem]; intros H; try discriminate H;
    eexists; split; reflexivity.
Qed.

Lemma setitem_object (j j' : json) (k : str) (v : json) :
  setitem j k v = Ret j' -> is_object j = true /\ is_object j' = true.
Proof.
  intros H. destruct (setitem_ret _ _ _ _ H) as (d & -> & ->).
  split; reflexivity.
Qed.

(** X5: the three individual parameters win over the template.  When the
    parameters sent are an object, the API key (if its name and value are
    set) is in it under [api_key_param]; the message (if [message_param]
    is set and the message is not empty) is in it under [message_param]
    unless the API key took that name; and the phone number likewise
    under [recipient_param], unless the message or the API key took that
    name.  What the template put under those names is overwritten. *)
Theorem external_params_overrides
        (P : platform) (self : ExternalGateway.t) (message phone : str)
        (m : dict) :
  let key_set := truthy (ExternalGateway.api_key_param self)
                 && truthy (ExternalGateway.api_key_value self) in
  let message_set := truthy (ExternalGateway.message_param self)
                     && truthy message in
  let recipient_set := truthy (ExternalGateway.recipient_param self)
                       && truthy phone in
  external_params P self message phone = Ret (JObj m) ->
  (key_set = true ->
   dict_get (ExternalGateway.api_key_param self) m
     = Some (JStr (ExternalGateway.api_key_value self))) /\
  (message_set = true ->
   (key_set = false \/
    ExternalGateway.message_param self <> ExternalGateway.api_key_param self) ->
   dict_get (ExternalGateway.message_param self) m = Some (JStr message)) /\
  (recipient_set = true ->
   (message_set = false \/
    ExternalGateway.recipient_param self <> ExternalGateway.message_param self) ->
   (key_set = false \/
    ExternalGateway.recipient_param self <> ExternalGateway.api_key_param self) ->
   dict_get (ExternalGateway.recipient_param self) m = Some (JStr phone)).
Proof.
  cbv zeta. unfold external_params.
  set (p0 := template_params P self message phone).
  set (rp := ExternalGateway.recipient_param self).
  set (mp := ExternalGateway.message_param self).
  set (kp := ExternalGateway.api_key_param self).
  set (kv := ExternalGateway.api_key_value self).
  destruct (truthy rp && truthy phone) eqn:Er;
    destruct (truthy mp && truthy message) eqn:Em;
    destruct (truthy kp && truthy kv) eqn:Ek; intros H.
  all: try (destruct (setitem p0 _ _) as [j | e] eqn:E in H;
            [|discriminate H];
            apply setitem_ret in E; destruct E as (d & _ & ->)).
  all: cbn [setitem] in H; injection H as H.
  all: split; [|split]; intros; try discriminate; subst m;
       repeat match goal with
       | H : _ = false \/ _ <> _ |- _ =>
         destruct H as [H | H]; [discriminate H|]
       end;
       repeat first [ rewrite dict_get_set_same; reflexivity
                    | rewrite dict_get_set_other by assumption ].
Qed.

Lemma external_params_overrides_witness :
  dict_get (u "message")
    [(u "to", JStr (u "393331234567")); (u "message", JStr (u "Hello"))]
    = Some (JStr (u "Hello")) /\
  dict_get (u "to")
    [(u "to", JStr (u "393331234567")); (u "message", JStr (u "Hello"))]
    = Some (JStr (u "393331234567")).
Proof.
  pose proof (external_params_overrides sample_platform sample_external
                (u "Hello") (u "393331234567")
                [(u "to", JStr (u "393331234567"));
                 (u "message", JStr (u "Hello"))] eq_refl) as (_ & Hm & Hr).
  split.
  - apply Hm; [reflexivity | left; reflexivity].
  - apply Hr; [reflexivity | right; discriminate | left; reflexivity].
Defined.

Lemma dict_get_app (k : str) (a b : dict) :
  dict_get k (a ++ b)
    = match dict_get k a with Some v => Some v | None => dict_get k b end.
Proof.
  induction a as [|[k' v'] a IH]; [reflexivity|].
  cbn [app dict_get]. destruct (str_eqb k k'); [reflexivity | exact IH].
Qed.

(** After [d.update(m)] a key has its last binding in [m], or else the
    binding it had in [d]. *)
Lemma dict_get_update (k : str) (d m : dict) :
  dict_get k (dict_update d m)
    = match last_binding k m with
      | Some v => Some v
      | None => dict_get k d
      end.
Proof.
  unfold dict_update, last_binding. revert d.
  induction m as [|[k' v'] m IH]; intros d; [reflexivity|].
  cbn [fold_left fst snd rev]. rewrite IH, dict_get_app.
  destruct (dict_get k (rev m)); [reflexivity|].
  cbn [dict_get]. destruct (str_eqb k k') eqn:E.
  - apply str_eqb_eq in E. subst k'. apply dict_get_set_same.
  - apply dict_get_set_other. intros ->. rewrite str_eqb_refl in E.
    discriminate E.
Qed.

(** X6: the headers of an external request.  When the [headers] field
    decodes to an object, every configured header is sent with its
    configured value (the last one, if the document repeats a name), and
    [Content-Type: application/json] is sent unless the configuration
    names [Content-Type] itself.  When the field is empty or does not
    decode, the send goes on with the default header alone. *)
Theorem external_headers_merge (P : platform) (self : ExternalGateway.t) :
  (forall m,
     truthy (ExternalGateway.headers self) = true ->
     json_loads (float_repr P) (ExternalGateway.headers self) = Some (JObj m) ->
     exists h,
       external_headers P self = Ret h /\
       forall k,
         dict_get k h =
           match last_binding k m with
           | Some v => Some v
           | None =>
             if str_eqb k (u "Content-Type")
             then Some (JStr (u "application/json")) else None
           end) /\
  (truthy (ExternalGateway.headers self) = false \/
   json_loads (float_repr P) (ExternalGateway.headers self) = None ->
   external_headers P self
     = Ret [(u "Content-Type", JStr (u "application/json"))]).
Proof.
  unfold external_headers. split.
  - intros m Ht Hm. rewrite Ht, Hm. eexists. split; [reflexivity|].
    intros k. rewrite dict_get_update. reflexivity.
  - intros [Ht | Hn].
    + rewrite Ht. reflexivity.
    + rewrite Hn. destruct (truthy _); reflexivity.
Qed.

Lemma external_headers_merge_witness :
  exists h,
    external_headers sample_platform list_template_external = Ret h /\
    forall k,
      dict_get k h =
        match last_binding k [(u "X-Key", JStr (u "k"));
                              (u "Content-Type", JStr (u "text/plain"))] with
        | Some v => Some v
        | None =>
          if str_eqb k (u "Content-Type")
          then Some (JStr (u "application/json")) else None
        end.
Proof.
  apply (proj1 (external_headers_merge sample_platform list_template_external));
    reflexivity.
Defined.

(** X7: a template that is valid JSON and not an object.  When the
    parameters decoded from the template are not an object and one of the
    three individual parameters is to be set, the send raises a
    [TypeError] before any request is made: the world is unchanged. *)
Theorem send_external_message_not_an_object
        (P : platform) (self : ExternalGateway.t) (message phone : str)
        (w : world) (h : dict) :
  external_headers P self = Ret h ->
  is_object (template_params P self message phone) = false ->
  (truthy (ExternalGateway.recipient_param self) && truthy phone)
  || (truthy (ExternalGateway.message_param self) && truthy message)
  || (truthy (ExternalGateway.api_key_param self)
      && truthy (ExternalGateway.api_key_value self)) = true ->
  exists e,
    _send_external_message P self message phone w = (w, Raise e) /\
    exn_class_of e = TypeError.
Proof.
  intros Hh Hobj Hset.
  assert (Hp : exists e, external_params P self message phone = Raise e
                         /\ exn_class_of e = TypeError).
  { unfold external_params.
    set (p0 := template_params P self message phone) in *.
    destruct (truthy (ExternalGateway.recipient_param self) && truthy phone).
    - destruct (setitem_raise p0 (ExternalGateway.recipient_param self)
                  (JStr phone) Hobj) as (e & -> & He).
      exists e. split; [reflexivity | exact He].
    - destruct (truthy (ExternalGateway.message_param self) && truthy message).
      + destruct (setitem_raise p0 (ExternalGateway.message_param self)
                    (JStr message) Hobj) as (e & -> & He).
        exists e. split; [reflexivity | exact He].
      + cbn [orb] in Hset. rewrite Hset.
        destruct (setitem_raise p0 (ExternalGateway.api_key_param self)
                    (JStr (ExternalGateway.api_key_value self)) Hobj)
          as (e & -> & He).
        exists e. split; [reflexivity | exact He]. }
  destruct Hp as (e & Hp & He). exists e. split; [|exact He].
  unfold _send_external_message, bind, lift, external_request.
  rewrite Hh, Hp. unfold wrap_request_exception. rewrite He. reflexivity.
Qed.

Lemma send_external_message_not_an_object_witness :
  exists e,
    _send_external_message sample_platform list_template_external (u "Hello")
      (u "393331234567") sample_world = (sample_world, Raise e) /\
    exn_class_of e = TypeError.
Proof.
  apply (send_external_message_not_an_object sample_platform
           list_template_external (u "Hello") (u "393331234567") sample_world
           [(u "Content-Type", JStr (u "text/plain"));
            (u "X-Key", JStr (u "k"))]); reflexivity.
Defined.

(** ** The dispatcher, the chatter and the counters *)

(** What a call of the dispatcher leaves in the log and on the chatter. *)
Lemma send_whatsapp_async_effects
      (P : platform) (self : Gateway.t) (message phone model : str)
      (res_id : Z) (template_id : option N) (w : world) :
  let '(w1, phone', outcome) := dispatch P self message phone w in
  let '(w', result) :=
    send_whatsapp_async P self message phone model res_id template_id w in
  result = match outcome with Ret _ => Ret true | Raise e => Raise e end /\
  sent w' = sent w1 /\ queue w' = queue w /\
  logs w' =
    logs w ++
    [{| Log.gateway_id := Some (Gateway.id self);
        Log.type := Gateway.type self;
        Log.message := message;
        Log.phone_number := phone';
        Log.status :=
          match outcome with Ret _ => success | Raise _ => error end;
        Log.response_code :=
          match outcome with
          | Ret response => dec (sr_status_code response)
          | Raise e =>
            dec (match exn_status_code e with Some c => c | None => 500%Z end)
          end;
        Log.response_body :=
          match outcome with
          | Ret response => sr_response_body response
          | Raise e => exn_text e
          end;
        Log.timestamp := now w;
        Log.res_model := model;
        Log.res_id := res_id |}] /\
  chatter w' =
    chatter w ++
    (if truthy model && negb (res_id =? 0)%Z && postable P model res_id
     then [{| note_model := model; note_res_id := res_id;
              note_body :=
                match outcome with
                | Ret _ =>
                  u "WhatsApp message sent to " ++ phone' ++ u ": " ++ message
                | Raise e =>
                  u "WhatsApp message failed to " ++ phone' ++ u ": "
                    ++ message ++ [10] ++ u "Error: " ++ exn_text e
                end;
              note_subtype :=
                match outcome with
                | Ret _ => u "mail.mt_note"
                | Raise _ => u "mail.mt_comment"
                end |}]
     else []).
Proof.
  pose proof (dispatch_only_sent P self message phone w) as Hframe.
  unfold send_whatsapp_async.
  destruct (dispatch P self message phone w) as [[w1 phone'] outcome].
  destruct Hframe as (Hlogs & Hnow & Hqueue & Hchat).
  cbn [fst] in Hlogs, Hnow, Hqueue, Hchat.
  unfold bind, _log_message, _write_to_chatter, modify, ret, raise.
  destruct outcome as [response | e];
    destruct (truthy model && negb (res_id =? 0)%Z);
    destruct (postable P model res_id); cbn;
    rewrite ?Hlogs, ?Hnow, ?Hqueue, ?Hchat, ?app_nil_r;
    (split; [reflexivity|]); (split; [reflexivity|]);
    (split; [reflexivity|]); (split; reflexivity).
Qed.

Lemma dispatch_with_postable
      (P : platform) (f : str -> Z -> bool) (self : Gateway.t)
      (message phone : str) (w : world) :
  dispatch (with_postable P f) self message phone w
    = dispatch P self message phone w.
Proof. reflexivity. Qed.

(** X8: the chatter never changes the outcome of a dispatch.  Whether the
    source record can be posted to or not, the call returns or raises the
    same, logs the same entry and sends the same requests.  The chatter
    gets no note when no source record is given, and at most one
    otherwise. *)
Theorem send_whatsapp_async_chatter_independent
        (P : platform) (f : str -> Z -> bool) (self : Gateway.t)
        (message phone model : str) (res_id : Z) (template_id : option N)
        (w : world) :
  let (w1, r1) :=
    send_whatsapp_async P self message phone model res_id template_id w in
  let (w2, r2) :=
    send_whatsapp_async (with_postable P f) self message phone model res_id
      template_id w in
  r2 = r1 /\ logs w2 = logs w1 /\ sent w2 = sent w1 /\ queue w2 = queue w1 /\
  (exists notes, chatter w1 = chatter w ++ notes /\
                 (List.length notes <= 1)%nat /\
                 (truthy model && negb (res_id =? 0)%Z = false -> notes = [])).
Proof.
  pose proof (send_whatsapp_async_effects P self message phone model res_id
                template_id w) as H1.
  pose proof (send_whatsapp_async_effects (with_postable P f) self message
                phone model res_id template_id w) as H2.
  rewrite dispatch_with_postable in H2.
  destruct (dispatch P self message phone w) as [[w0 phone'] outcome].
  destruct (send_whatsapp_async P self message phone model res_id
              template_id w) as [w1 r1].
  destruct (send_whatsapp_async (with_postable P f) self message phone model
              res_id template_id w) as [w2 r2].
  destruct H1 as (Hr1 & Hs1 & Hq1 & Hl1 & Hc1).
  destruct H2 as (Hr2 & Hs2 & Hq2 & Hl2 & Hc2).
  split; [congruence|]. split; [congruence|].
  split; [congruence|]. split; [congruence|].
  eexists. split; [exact Hc1|].
  destruct (truthy model && negb (res_id =? 0)%Z);
    destruct (postable P model res_id); cbn; split; auto; discriminate.
Qed.

Lemma search_count_append (domain : Log.t -> bool) (w w' : world)
      (entry : Log.t) :
  logs w' = logs w ++ [entry] ->
  search_count domain w'
    = (search_count domain w + (if domain entry then 1 else 0))%nat.
Proof.
  unfold search_count. intros ->. rewrite filter_app, length_app.
  cbn [filter]. destruct (domain entry); reflexivity.
Qed.

(** X9: the counters follow the dispatcher.  One call adds one to the
    log count of the gateway it went through and leaves the count of
    every other gateway as it was; it adds one to the message count of a
    partner (of a lead) exactly when the call named that partner (that
    lead) as its source record. *)
Theorem send_whatsapp_async_counts
        (P : platform) (self other : Gateway.t) (partner : Partner.t)
        (lead : Lead.t) (message phone model : str) (res_id : Z)
        (template_id : option N) (w : world) :
  let w' := fst (send_whatsapp_async P self message phone model res_id
                   template_id w) in
  _compute_log_count w' self = S (_compute_log_count w self) /\
  (Gateway.id other <> Gateway.id self ->
   _compute_log_count w' other = _compute_log_count w other) /\
  Partner._compute_whatsapp_log_count w' partner
    = (Partner._compute_whatsapp_log_count w partner
       + (if str_eqb model (u "res.partner") && (res_id =? Partner.id partner)%Z
          then 1 else 0))%nat /\
  Lead._compute_whatsapp_log_count w' lead
    = (Lead._compute_whatsapp_log_count w lead
       + (if str_eqb model (u "crm.lead") && (res_id =? Lead.id lead)%Z
          then 1 else 0))%nat.
Proof.
  cbv zeta.
  pose proof (send_whatsapp_async_effects P self message phone model res_id
                template_id w) as H.
  destruct (dispatch P self message phone w) as [[w0 phone'] outcome].
  destruct (send_whatsapp_async P self message phone model res_id
              template_id w) as [w' r].
  destruct H as (_ & _ & _ & Hl & _). cbn [fst].
  unfold _compute_log_count, Partner._compute_whatsapp_log_count,
    Lead._compute_whatsapp_log_count.
  rewrite !(search_count_append _ w w' _ Hl). cbn [Log.gateway_id
    Log.res_model Log.res_id].
  rewrite N.eqb_refl. split; [lia|]. split; [|split; reflexivity].
  intros Hne. destruct (N.eqb_spec (Gateway.id self) (Gateway.id other));
    [congruence | lia].
Qed.

Lemma send_whatsapp_async_counts_witness :
  _compute_log_count
    (fst (send_whatsapp_async sample_platform sample_gateway (u "Hello")
            (u "3331234567") (u "res.partner") 7 None sample_world))
    idle_gateway
  = _compute_log_count sample_world idle_gateway.
Proof.
  apply (proj1 (proj2 (send_whatsapp_async_counts sample_platform
                         sample_gateway idle_gateway sample_partner
                         sample_lead (u "Hello") (u "3331234567")
                         (u "res.partner") 7%Z None sample_world))).
  discriminate.
Defined.

(** ** The scanner and the renderer *)

(** X11: what the scanner finds.  Every placeholder found in a body is
    not empty, has no closing brace, and stands in the body as the token
    ["${placeholder}"]. *)
Theorem findall_placeholders_sound (s p : str) :
  In p (findall_placeholders s) ->
  p <> [] /\ brace_free p = true /\
  exists pre post, s = pre ++ token p ++ post.
Proof.
  intros H. exact (proj1 (scanner_sound (List.length s) s (le_n _)) p H).
Qed.

Lemma findall_placeholders_sound_witness :
  u "company.name" <> [] /\ brace_free (u "company.name") = true /\
  exists pre post,
    u "Hi ${object.name} from ${company.name}!"
      = pre ++ token (u "company.name") ++ post.
Proof.
  apply (findall_placeholders_sound
           (u "Hi ${object.name} from ${company.name}!") (u "company.name")).
  right. left. reflexivity.
Defined.

Lemma contains_cons (sub s : str) (c : char) :
  contains sub s = true -> contains sub (c :: s) = true.
Proof. intros H. cbn [contains]. rewrite H. apply orb_true_r. Qed.

Lemma contains_middle (sub pre post : str) :
  contains sub (pre ++ sub ++ post) = true.
Proof.
  induction pre as [|c pre IH].
  - cbn [app]. destruct (sub ++ post) eqn:E; cbn [contains];
      rewrite <- E, startswith_app; reflexivity.
  - apply contains_cons. exact IH.
Qed.

(** X12: a body without placeholders is rendered as it is.  When ["${"]
    does not occur in the content, the renderer returns the content
    unchanged, whatever the record. *)
Theorem render_without_placeholders (env : environment) (content : str)
        (record : pyval) :
  contains (u "${") content = false ->
  _render_template_content env content record = content.
Proof.
  intros H. rewrite render_unfold.
  destruct (findall_placeholders content) as [|p ps] eqn:E; [reflexivity|].
  exfalso.
  destruct (findall_placeholders_sound content p) as (_ & _ & pre & post & Hs).
  - rewrite E. left. reflexivity.
  - rewrite Hs in H. unfold token in H. rewrite <- !app_assoc in H.
    rewrite contains_middle in H. discriminate H.
Qed.

Lemma render_without_placeholders_witness :
  _render_template_content sample_env (u "Total: 5 $ {no placeholder}")
    sample_record
  = u "Total: 5 $ {no placeholder}".
Proof.
  apply (render_without_placeholders sample_env
           (u "Total: 5 $ {no placeholder}") sample_record).
  reflexivity.
Defined.






(** ** The wizard, partners and leads *)

Lemma lstrip_nil (s : str) : lstrip s = [] <-> forallb isspace s = true.
Proof.
  induction s as [|c s IH]; [split; reflexivity|].
  cbn [lstrip forallb]. destruct (isspace c); cbn [andb]; [exact IH|].
  split; intros H; discriminate H.
Qed.

Lemma lstrip_spaces (s : str) :
  forallb isspace (lstrip s) = true -> forallb isspace s = true.
Proof.
  induction s as [|c s IH]; [reflexivity|].
  cbn [lstrip]. destruct (isspace c) eqn:Ec.
  - intros H. cbn [forallb]. rewrite Ec, (IH H). reflexivity.
  - cbn [forallb]. rewrite Ec. intros H. discriminate H.
Qed.

Lemma forallb_rev {A} (f : A -> bool) (l : list A) :
  forallb f (rev l) = forallb f l.
Proof.
  induction l as [|x l IH]; [reflexivity|].
  cbn [rev forallb]. rewrite forallb_app, IH. cbn [forallb].
  rewrite andb_true_r. apply andb_comm.
Qed.

(** [not s.strip()] holds exactly of the strings of white space. *)
Lemma strip_empty (s : str) :
  truthy (strip s) = false <-> forallb isspace s = true.
Proof.
  unfold strip. split.
  - intros H.
    assert (E : lstrip (rev (lstrip s)) = []).
    { destruct (lstrip (rev (lstrip s))) as [|c l] eqn:E; [reflexivity|].
      exfalso. cbn [rev] in H. destruct (rev l ++ [c]) eqn:E2.
      - apply (f_equal (@List.length _)) in E2. rewrite length_app in E2.
        cbn in E2. lia.
      - discriminate H. }
    apply lstrip_nil in E. rewrite forallb_rev in E.
    apply lstrip_spaces. exact E.
  - intros H. apply lstrip_nil in H. rewrite H. reflexivity.
Qed.

(** X15: what the wizard accepts and queues.  A message or a phone number
    made of white space only is refused with a [UserError] and nothing is
    queued.  Otherwise, when the job queue takes the job, one job is
    queued with the message, the phone number and the source record as
    they stand in the wizard (not stripped), nothing is logged or sent
    yet, and the phone number is one the normaliser will not refuse. *)
Theorem action_send_message_queues
        (delayed : res str) (self : Wizard.t) (w : world) :
  let blank := forallb isspace (Wizard.message self)
               || forallb isspace (Wizard.phone_number self) in
  let (w', r) := Wizard.action_send_message delayed self w in
  (blank = true ->
   w' = w /\ exists e, r = Raise e /\ exn_class_of e = UserError) /\
  (blank = false ->
   match delayed with
   | Ret uuid =>
     (exists n, r = Ret n) /\
     queue w' = queue w ++ [wizard_job self] /\
     logs w' = logs w /\ sent w' = sent w /\
     exists cleaned,
       _clean_phone_number (Wizard.phone_number self) = Ret cleaned
   | Raise e =>
     w' = w /\
     r = Raise (raise_of UserError
                  (u "Failed to queue message: " ++ exn_text e))
   end).
Proof.
  cbv zeta. unfold Wizard.action_send_message.
  destruct (forallb isspace (Wizard.message self)) eqn:Em.
  - apply strip_empty in Em. rewrite Em. cbn [negb orb].
    split; [|intros H; discriminate H].
    intros _. split; [reflexivity|]. eexists. split; reflexivity.
  - assert (Em' : truthy (strip (Wizard.message self)) = true).
    { destruct (truthy (strip (Wizard.message self))) eqn:E; [reflexivity|].
      apply strip_empty in E. congruence. }
    rewrite Em'. cbn [negb orb].
    destruct (forallb isspace (Wizard.phone_number self)) eqn:Ep.
    + apply strip_empty in Ep. rewrite Ep. cbn [negb].
      split; [|intros H; discriminate H].
      intros _. split; [reflexivity|]. eexists. split; reflexivity.
    + assert (Ep' : truthy (strip (Wizard.phone_number self)) = true).
      { destruct (truthy (strip (Wizard.phone_number self))) eqn:E;
          [reflexivity|].
        apply strip_empty in E. congruence. }
      rewrite Ep'. cbn [negb].
      destruct delayed as [uuid | e].
      * split; [intros H; discriminate H|]. intros _.
        split; [eexists; reflexivity|]. split; [reflexivity|].
        split; [reflexivity|]. split; [reflexivity|].
        assert (Hne : Wizard.phone_number self <> [])
          by (intros E; rewrite E in Ep; discriminate Ep).
        rewrite clean_phone_number_nonempty by exact Hne. cbv zeta.
        destruct (negb _ && _); eexists; reflexivity.
      * split; [intros H; discriminate H|]. intros _.
        split; reflexivity.
Qed.

Lemma action_send_message_queues_witness :
  (exists n,
      snd (Wizard.action_send_message (Ret (u "job-1")) sample_wizard
             sample_world) = Ret n) /\
  queue (fst (Wizard.action_send_message (Ret (u "job-1")) sample_wizard
                sample_world))
    = queue sample_world ++ [wizard_job sample_wizard].
Proof.
  pose proof (action_send_message_queues (Ret (u "job-1")) sample_wizard
                sample_world) as H.
  cbv zeta in H.
  destruct (Wizard.action_send_message (Ret (u "job-1")) sample_wizard
              sample_world) as [w' r].
  destruct H as [_ H]. destruct (H eq_refl) as (Hr & Hq & _).
  split; [exact Hr | exact Hq].
Defined.

Lemma py_or_first (a b : str) : py_or a b = first_truthy [a; b].
Proof.
  unfold py_or, first_truthy. cbn [find].
  destruct (truthy a); [reflexivity|]. destruct b; reflexivity.
Qed.

(** X16: which number a lead sends to.  The action takes the first
    non-empty number among the lead's mobile, the lead's phone and, when
    the lead has a partner, the partner's WhatsApp number, mobile and
    phone, and opens the wizard with it; only when all of them are empty
    does it show the warning instead. *)
Theorem lead_action_send_whatsapp_number (self : Lead.t) :
  let candidates :=
    Lead.mobile self :: Lead.phone self ::
    match Lead.partner_id self with
    | Some partner =>
      [Partner.whatsapp_number partner; Partner.mobile partner;
       Partner.phone partner]
    | None => []
    end in
  match find truthy candidates with
  | Some number =>
    Lead.action_send_whatsapp self
      = OpenSendWizard (u "crm.lead") (Lead.id self) number
  | None =>
    Lead.action_send_whatsapp self
      = DisplayNotification (u "No Phone Number")
          (u "No phone number found for " ++ Lead.name self
             ++ u ". Please set a phone or mobile number.")
          (u "warning")
  end.
Proof.
  cbv zeta. unfold Lead.action_send_whatsapp, Partner.get_whatsapp_phone,
    py_or.
  cbn [find].
  destruct (Lead.mobile self) as [|c1 m] eqn:E1; cbn [truthy negb];
    [|reflexivity].
  destruct (Lead.phone self) as [|c2 p] eqn:E2; cbn [truthy negb];
    [|reflexivity].
  destruct (Lead.partner_id self) as [partner|]; [|reflexivity].
  cbn [find].
  destruct (Partner.whatsapp_number partner); cbn [truthy negb];
    [|reflexivity].
  destruct (Partner.mobile partner); cbn [truthy negb]; [|reflexivity].
  destruct (Partner.phone partner); reflexivity.
Qed.

(** X17: the wizard's own choice of number.  Opened from a partner that
    has a mobile or a phone number, the wizard's defaults carry the
    mobile number, or else the phone number, whatever default the caller
    passed on; the partner's WhatsApp number is taken only when both are
    empty.  The source record of the defaults is the partner. *)
Theorem default_get_partner_phone
        (inherited : Wizard.defaults) (p : Partner.t) :
  Partner.id p <> 0%Z ->
  let d := Wizard.default_get inherited (partner_context p)
             (Some (partner_fields p)) in
  Wizard.d_res_model d = Some (u "res.partner") /\
  Wizard.d_res_id d = Some (Partner.id p) /\
  Wizard.d_phone_number d =
    match find truthy [Partner.mobile p; Partner.phone p;
                       Partner.whatsapp_number p] with
    | Some number => Some number
    | None => Wizard.d_phone_number inherited
    end.
Proof.
  intros Hid. cbv zeta. unfold Wizard.default_get, partner_context.
  cbn [Wizard.active_model Wizard.active_id Wizard.default_gateway_id
       Wizard.default_template_id].
  change (truthy (u "res.partner")) with true.
  destruct (Z.eqb_spec (Partner.id p) 0) as [E | _]; [contradiction|].
  cbn [andb negb Wizard.d_res_model Wizard.d_res_id Wizard.d_phone_number].
  split; [reflexivity|]. split; [reflexivity|].
  unfold partner_fields.
  change (Wizard.first_phone _ _)
    with (if truthy (Partner.mobile p) then Some (Partner.mobile p)
          else if truthy (Partner.phone p) then Some (Partner.phone p)
          else if truthy (Partner.whatsapp_number p)
               then Some (Partner.whatsapp_number p) else None).
  cbn [find].
  destruct (truthy (Partner.mobile p)); [reflexivity|].
  destruct (truthy (Partner.phone p)); [reflexivity|].
  destruct (truthy (Partner.whatsapp_number p)); reflexivity.
Qed.

Lemma default_get_partner_phone_witness :
  Wizard.d_phone_number
    (Wizard.default_get no_defaults (partner_context sample_partner)
       (Some (partner_fields sample_partner)))
  = Some (u "06 12345").
Proof.
  refine (proj2 (proj2 (default_get_partner_phone no_defaults sample_partner
                          _))).
  discriminate.
Defined.

(** ** Retry, then the queued job *)

Lemma dispatch_phone (P : platform) (self : Gateway.t)
      (message phone cleaned : str) (w : world) :
  _clean_phone_number phone = Ret cleaned ->
  snd (fst (dispatch P self message phone w)) = cleaned.
Proof.
  intros H. unfold dispatch. rewrite H.
  destruct (str_eqb (Gateway.type self) (u "external_rest")).
  - destruct (browse_external w (Gateway.id self)) as [g|].
    + destruct (_send_external_message P g message cleaned w). reflexivity.
    + reflexivity.
  - destruct (str_eqb (Gateway.type self) (u "meta_cloud_api")).
    + destruct (browse_meta w (Gateway.id self)) as [g|].
      * destruct (_send_meta_message P g message cleaned w). reflexivity.
      * reflexivity.
    + reflexivity.
Qed.

(** X18: a retry, followed through.  For an entry in error whose stored
    number came out of the normaliser and whose gateway is active, the
    retry queues one job; when that job is run on the gateway, the log
    has exactly one entry more, with the entry's message and source
    record.  The stored number is normalised once more on the way: the
    new entry has the same number when it starts with ["+"], and the
    number behind a ["+"] when it does not. *)
Theorem retry_then_dispatch
        (P : platform) (entry : Log.t) (gateway : Gateway.t) (i : N)
        (raw : str) (w : world) :
  Log.status entry = error ->
  Log.gateway_id entry = Some i -> browse_gateway w i = Some gateway ->
  Gateway.active gateway = true ->
  _clean_phone_number raw = Ret (Log.phone_number entry) ->
  exists j,
    queue (fst (action_retry_send P entry w)) = queue w ++ [j] /\
    exists e',
      logs (fst (send_whatsapp_async P gateway (job_message j)
                   (job_phone_number j) (job_model j) (job_res_id j) None
                   (fst (action_retry_send P entry w))))
        = logs w ++ [e'] /\
      Log.message e' = Log.message entry /\
      Log.res_model e' = Log.res_model entry /\
      Log.res_id e' = Log.res_id entry /\
      Log.gateway_id e' = Some (Gateway.id gateway) /\
      Log.phone_number e' =
        if startswith (u "+") (Log.phone_number entry)
        then Log.phone_number entry
        else u "+" ++ Log.phone_number entry.
Proof.
  intros Hst Hg Hb Ha Hraw.
  unfold action_retry_send. rewrite Hst, Hg, Hb, Ha. cbn [fst].
  eexists. split; [reflexivity|]. cbn [job_message job_phone_number
    job_model job_res_id].
  set (w1 := set_queue _ w).
  assert (Hclean : _clean_phone_number (Log.phone_number entry) =
                   Ret (if startswith (u "+") (Log.phone_number entry)
                        then Log.phone_number entry
                        else u "+" ++ Log.phone_number entry)).
  { destruct (clean_phone_number_result raw _ Hraw) as [_ Hr].
    pose proof (filter_isdigit_digits raw) as Hd.
    destruct Hr as [[Hc Hr] | [Hc Hr]]; rewrite Hr.
    - assert (H39 : forallb isdigit (u "39" ++ filter isdigit raw) = true)
        by (rewrite forallb_app, Hd; reflexivity).
      rewrite clean_phone_number_nonempty by discriminate. cbv zeta.
      rewrite (filter_all _ _ H39). reflexivity.
    - rewrite clean_phone_number_nonempty by discriminate. cbv zeta.
      rewrite filter_isdigit_plus, (filter_all _ _ Hd), Hc. reflexivity. }
  pose proof (send_whatsapp_async_effects P gateway (Log.message entry)
                (Log.phone_number entry) (Log.res_model entry)
                (Log.res_id entry) None w1) as H.
  pose proof (dispatch_phone P gateway (Log.message entry)
                (Log.phone_number entry) _ w1 Hclean) as Hp.
  destruct (dispatch P gateway (Log.message entry) (Log.phone_number entry) w1)
    as [[w0 phone'] outcome].
  cbn [fst snd] in Hp. subst phone'.
  destruct (send_whatsapp_async P gateway (Log.message entry)
              (Log.phone_number entry) (Log.res_model entry)
              (Log.res_id entry) None w1) as [w2 r].
  destruct H as (_ & _ & _ & Hl & _). cbn [fst].
  eexists. split; [exact Hl|]. repeat split; reflexivity.
Qed.

Lemma retry_then_dispatch_witness :
  exists j,
    queue (fst (action_retry_send sample_platform
                  (failed_entry (Some 1)) sample_world))
      = queue sample_world ++ [j] /\
    exists e',
      logs (fst (send_whatsapp_async sample_platform sample_gateway
                   (job_message j) (job_phone_number j) (job_model j)
                   (job_res_id j) None
                   (fst (action_retry_send sample_platform
                           (failed_entry (Some 1)) sample_world))))
        = logs sample_world ++ [e'] /\
      Log.message e' = Log.message (failed_entry (Some 1)) /\
      Log.res_model e' = Log.res_model (failed_entry (Some 1)) /\
      Log.res_id e' = Log.res_id (failed_entry (Some 1)) /\
      Log.gateway_id e' = Some (Gateway.id sample_gateway) /\
      Log.phone_number e' =
        if startswith (u "+") (Log.phone_number (failed_entry (Some 1)))
        then Log.phone_number (failed_entry (Some 1))
        else u "+" ++ Log.phone_number (failed_entry (Some 1)).
Proof.
  apply (retry_then_dispatch sample_platform (failed_entry (Some 1))
           sample_gateway 1 (u "+1 555 123 4567") sample_world);
    reflexivity.
Defined.

(** ** The default template of the external gateway *)

Lemma scanstring_plain (s rest acc : str) :
  forallb json_plain s = true ->
  scanstring (s ++ dquote :: rest) acc = Some (rev acc ++ s, rest).
Proof.
  revert acc. induction s as [|c s IH]; intros acc H.
  - cbn [app scanstring]. rewrite N.eqb_refl, app_nil_r. reflexivity.
  - cbn [forallb] in H. apply andb_true_iff in H as [Hc Hs].
    unfold json_plain in Hc.
    apply andb_true_iff in Hc as [Hc H31].
    apply andb_true_iff in Hc as [Hq Hb].
    apply negb_true_iff in Hq, Hb. apply N.ltb_lt in H31.
    change ((c :: s) ++ dquote :: rest) with (c :: (s ++ dquote :: rest)).
    cbn [scanstring]. rewrite Hq, Hb.
    destruct (N.leb_spec c 31) as [Hle | _]; [lia|].
    rewrite (IH (c :: acc) Hs). cbn [rev]. rewrite <- app_assoc. reflexivity.
Qed.

Lemma scanstring_control (s rest acc : str) (c : char) :
  forallb json_plain s = true -> c <= 31 ->
  scanstring (s ++ c :: rest) acc = None.
Proof.
  revert acc. induction s as [|x s IH]; intros acc H Hc.
  - cbn [app scanstring].
    destruct (N.eqb_spec c dquote) as [E | _]; [unfold dquote in E; lia|].
    destruct (N.eqb_spec c 92) as [E | _]; [lia|].
    destruct (N.leb_spec c 31) as [_ | Hgt]; [reflexivity | lia].
  - cbn [forallb] in H. apply andb_true_iff in H as [Hx Hs].
    unfold json_plain in Hx.
    apply andb_true_iff in Hx as [Hx H31].
    apply andb_true_iff in Hx as [Hq Hb].
    apply negb_true_iff in Hq, Hb. apply N.ltb_lt in H31.
    change ((x :: s) ++ c :: rest) with (x :: (s ++ c :: rest)).
    cbn [scanstring]. rewrite Hq, Hb.
    destruct (N.leb_spec x 31) as [Hle | _]; [lia|].
    exact (IH (x :: acc) Hs Hc).
Qed.

Lemma loads_to_message (fr : str -> str) (phone message : str) :
  forallb json_plain phone = true -> forallb json_plain message = true ->
  json_loads fr (uq "{'to': '" ++ phone ++ uq "', 'message': '" ++ message
                   ++ uq "'}")
    = Some (JObj [(u "to", JStr phone); (u "message", JStr message)]).
Proof.
  intros Hp Hm. unfold json_loads.
  set (s := uq "{'to': '" ++ phone ++ uq "', 'message': '" ++ message ++ uq "'}").
  assert (Hf : exists n, (2 * List.length s + 2 = S (S (S (S n))))%nat).
  { exists (2 * List.length s - 2)%nat. subst s. cbn [uq u map list_ascii_of_string app List.length]. lia. }
  destruct Hf as [n ->]. subst s.
  change (uq "'}") with [dquote; 125]. simpl.
  rewrite (scanstring_plain phone _ [] Hp). simpl.
  rewrite (scanstring_plain message _ [] Hm). reflexivity.
Qed.

Lemma loads_broken_message (fr : str -> str) (phone m1 m2 : str) (c : char) :
  forallb json_plain phone = true -> forallb json_plain m1 = true ->
  c <= 31 ->
  json_loads fr (uq "{'to': '" ++ phone ++ uq "', 'message': '"
                   ++ (m1 ++ c :: m2) ++ uq "'}") = None.
Proof.
  intros Hp Hm Hc. unfold json_loads.
  set (s := uq "{'to': '" ++ phone ++ uq "', 'message': '"
              ++ (m1 ++ c :: m2) ++ uq "'}").
  assert (Hf : exists n, (2 * List.length s + 2 = S (S (S (S n))))%nat).
  { exists (2 * List.length s - 2)%nat. subst s.
    cbn [uq u map list_ascii_of_string app List.length]. lia. }
  destruct Hf as [n ->]. subst s.
  rewrite <- (app_assoc m1). simpl.
  rewrite (scanstring_plain phone _ [] Hp). simpl.
  rewrite (scanstring_control m1 _ [] c Hm Hc). reflexivity.
Qed.

(** A digit, and the sign ["+"], can stand in a JSON string and are no
    opening brace. *)
Lemma isdigit_plain (c : char) :
  isdigit c = true -> json_plain c = true /\ (c =? chr "{") = false.
Proof.
  intros H. apply in_ranges_true in H as (lo & hi & Hin & Hr).
  assert (Hc : 48 <= c /\ c <> 92 /\ c <> 123).
  { simpl in Hin.
    repeat (destruct Hin as [Hin | Hin]; [injection Hin as <- <-; lia|]).
    contradiction. }
  unfold json_plain, dquote. split.
  - destruct (N.eqb_spec c 34); [lia|]. destruct (N.eqb_spec c 92); [lia|].
    destruct (N.ltb_spec 31 c); [reflexivity | lia].
  - apply N.eqb_neq. intros E. change (chr "{") with 123 in E. lia.
Qed.

Lemma clean_phone_number_plain (raw r : str) :
  _clean_phone_number raw = Ret r ->
  forallb json_plain r = true /\
  forallb (fun x => negb (x =? chr "{")) r = true.
Proof.
  intros H. destruct (clean_phone_number_result raw r H) as [_ Hr].
  assert (Hd : forallb json_plain (filter isdigit raw) = true /\
               forallb (fun x => negb (x =? chr "{")) (filter isdigit raw)
                 = true).
  { split; apply forallb_forall; intros c Hc; apply filter_In in Hc;
      destruct (isdigit_plain c (proj2 Hc)) as [H1 H2];
      [exact H1 | rewrite H2; reflexivity]. }
  destruct Hd as [Hd1 Hd2].
  destruct Hr as [[_ ->] | [_ ->]]; split;
    rewrite forallb_app; apply andb_true_iff;
    (split; [reflexivity | assumption]).
Qed.

(** The text of the default template after the two replacements. *)
Lemma default_template_text (phone message : str) :
  forallb (fun x => negb (x =? chr "{")) phone = true ->
  replace (u "{message}") message
    (replace (u "{phone}") phone
       (uq "{'to': '{phone}', 'message': '{message}'}"))
  = uq "{'to': '" ++ phone ++ uq "', 'message': '" ++ message ++ uq "'}".
Proof.
  intros Hp.
  change (replace (u "{phone}") phone
            (uq "{'to': '{phone}', 'message': '{message}'}"))
    with (uq "{'to': '" ++ phone ++ uq "', 'message': '{message}'}").
  change (replace (u "{message}") message
            (uq "{'to': '" ++ phone ++ uq "', 'message': '{message}'}"))
    with (uq "{'to': '"
            ++ replace_from (chr "{" :: u "message}") message 0
                 (phone ++ uq "', 'message': '{message}'}")).
  rewrite (replace_from_copy (chr "{") (u "message}") message phone _ Hp).
  reflexivity.
Qed.

(** X19: the default template.  With [params_template] at its default,
    no API key value and a phone number from the normaliser, a message
    without double quote, backslash or control character gives the
    parameters [{"to": phone, "message": message}]; a message with a
    control character in it (a line break, say) makes the text
    undecodable, and the template then contributes no parameter at
    all. *)
Theorem default_template_params
        (P : platform) (self : ExternalGateway.t) (raw phone message : str) :
  ExternalGateway.params_template self = default_params_template ->
  ExternalGateway.api_key_value self = [] ->
  _clean_phone_number raw = Ret phone ->
  (forallb json_plain message = true ->
   template_params P self message phone
     = JObj [(u "to", JStr phone); (u "message", JStr message)]) /\
  (forall m1 m2 c,
     message = m1 ++ c :: m2 -> forallb json_plain m1 = true -> c <= 31 ->
     template_params P self message phone = JObj []).
Proof.
  intros Ht Hk Hphone.
  destruct (clean_phone_number_plain raw phone Hphone) as [Hp1 Hp2].
  assert (Hstep : template_params P self message phone =
                  match json_loads (float_repr P)
                          (uq "{'to': '" ++ phone ++ uq "', 'message': '"
                             ++ message ++ uq "'}") with
                  | Some params => params
                  | None => JObj []
                  end).
  { unfold template_params. rewrite Ht, Hk.
    change (truthy default_params_template) with true. cbv iota.
    change (json_loads (float_repr P) default_params_template)
      with (Some (JObj [(u "to", JStr (u "{phone}"));
                        (u "message", JStr (u "{message}"))])).
    cbv iota zeta.
    change (json_dumps (JObj [(u "to", JStr (u "{phone}"));
                              (u "message", JStr (u "{message}"))]))
      with (uq "{'to': '{phone}', 'message': '{message}'}").
    rewrite (default_template_text phone message Hp2). reflexivity. }
  rewrite Hstep. split.
  - intros Hm. rewrite (loads_to_message _ phone message Hp1 Hm). reflexivity.
  - intros m1 m2 c -> Hm Hc.
    rewrite (loads_broken_message _ phone m1 m2 c Hp1 Hm Hc). reflexivity.
Qed.

Lemma default_template_params_witness :
  template_params sample_platform default_external (u "Hello")
    (u "393331234567")
  = JObj [(u "to", JStr (u "393331234567")); (u "message", JStr (u "Hello"))]
  /\
  template_params sample_platform default_external
    (u "Hi" ++ 10 :: u "there") (u "393331234567")
  = JObj [].
Proof.
  split.
  - apply (proj1 (default_template_params sample_platform default_external
                    (u "3331234567") (u "393331234567") (u "Hello")
                    eq_refl eq_refl eq_refl)).
    reflexivity.
  - apply (proj2 (default_template_params sample_platform default_external
                    (u "3331234567") (u "393331234567")
                    (u "Hi" ++ 10 :: u "there") eq_refl eq_refl eq_refl)
             (u "Hi") (u "there") 10); [reflexivity | reflexivity | lia].
Defined.
